(** * pvinspect.data: images, image sequences, the sequence adapter and the
      bulk reader.

    A shallow embedding of [pvinspect/data/image.py] and
    [pvinspect/data/io.py].  Python objects become records and inductive
    types, Python control effects (a raised exception, [logging.error]
    followed by [exit()]) become the constructors of [outcome], and the
    numeric libraries the package calls (numpy, scikit-image) are the
    interface [ArrayLib], with one reference implementation at the end of
    the definitions. *)

From Stdlib Require Import String Ascii ZArith QArith Qround Bool Lia PeanoNat.
From Stdlib Require Import DecimalString DecimalNat List.
Import ListNotations.
Close Scope Q_scope.
Open Scope nat_scope.

Set Implicit Arguments.

(** ** Control effects *)

(** The exceptions that the modelled code raises itself or receives from the
    Python runtime. *)
Inductive exn : Type :=
| TypeError
| IndexError
| AttributeError
| ValueError
| RuntimeError (msg : string).

(** The messages passed to [logging.error] before [exit()]. *)
Inductive error_log : Type :=
| EmptySequence           (* Creation of an empty sequence is not supported *)
| MixedDtypes             (* Cannot create sequence from mixed dtypes. ... *)
| MixedShapes             (* Cannot create sequence from mixed shapes. ... *)
| MixedModalities         (* Cannot create a sequence from mixed modalities. *)
| DifferentModuleConfigurations
                          (* Cannot create sequence from different module configurations *)
| GeometryNotInitialized. (* Module geometry is not initialized *)

(** What a call can do: return a value, raise an exception that surfaces to
    the caller, or log an error and terminate the process.

    Modelled from the spec: [exit] is imported from
    [pvinspect.common._ipy_exit], which is not part of the sources at hand;
    following the specification it terminates the process, so that the pair
    [logging.error(msg); exit()] is the outcome [Exit msg] and nothing after
    it runs. *)
Inductive outcome (A : Type) : Type :=
| Return (a : A)
| Raise (e : exn)
| Exit (log : error_log).

Arguments Return {A} a.
Arguments Raise {A} e.
Arguments Exit {A} log.

Definition bind {A B : Type} (c : outcome A) (k : A -> outcome B) : outcome B :=
  match c with
  | Return a => k a
  | Raise e => Raise e
  | Exit m => Exit m
  end.

Notation "x <- c ;; k" := (bind c (fun x => k))
  (at level 61, c at next level, right associativity).

(** A list comprehension or [for] loop whose body can fail: the first failure
    ends it. *)
Fixpoint mapM {A B : Type} (f : A -> outcome B) (l : list A) : outcome (list B) :=
  match l with
  | [] => Return []
  | x :: xs => y <- f x ;; ys <- mapM f xs ;; Return (y :: ys)
  end.

(** ** numpy arrays *)

(** The element types the development distinguishes.  Image files decode to
    [uint8] or [uint16] (or to a float type when [as_gray] converts a colour
    image); [bool_] and [int16] stand for the other types scikit-image
    converts, [complex128] for those it refuses.  Byte order is not part of
    the model. *)
Inductive np_dtype : Type :=
| bool_ | uint8 | uint16 | int16 | float32 | float64 | complex128.

Definition dtype_eqb (a b : np_dtype) : bool :=
  match a, b with
  | bool_, bool_ | uint8, uint8 | uint16, uint16 | int16, int16
  | float32, float32 | float64, float64 | complex128, complex128 => true
  | _, _ => false
  end.

(** [dtype == np.float32 or dtype == np.float64] *)
Definition is_float (d : np_dtype) : bool :=
  match d with
  | float32 | float64 => true
  | _ => false
  end.

Definition shape_eqb (s t : nat * nat) : bool :=
  (fst s =? fst t) && (snd s =? snd t).

(** A two-dimensional array: element type, shape (rows, columns) and the
    cells in row-major order. *)
Record ndarray (V : Type) : Type := mk_ndarray {
  arr_dtype : np_dtype;
  arr_shape : nat * nat;
  arr_flat : list V
}.

Arguments mk_ndarray {V} _ _ _.

(** The buffer has one cell per index. *)
Definition well_formed {V} (a : ndarray V) : Prop :=
  length (arr_flat a) = fst (arr_shape a) * snd (arr_shape a).

(** [a[i, j]] *)
Definition item {V} (a : ndarray V) (i j : nat) : option V :=
  if j <? snd (arr_shape a)
  then nth_error (arr_flat a) (i * snd (arr_shape a) + j)
  else None.

(** [np.full(shape, v, dtype=dt)] *)
Definition np_full {V} (shape : nat * nat) (v : V) (dt : np_dtype) : ndarray V :=
  mk_ndarray dt shape (repeat v (fst shape * snd shape)).

(** [np.max(shapes, axis=0)]: the bounding shape; numpy refuses to reduce an
    empty array. *)
Definition bound (s t : nat * nat) : nat * nat :=
  (Nat.max (fst s) (fst t), Nat.max (snd s) (snd t)).

Definition np_max_axis0 (shapes : list (nat * nat)) : outcome (nat * nat) :=
  match shapes with
  | [] => Raise ValueError
  | s :: ss => Return (fold_left bound ss s)
  end.

(** The seven binary operators of [Image] and [ImageSequence]. *)
Inductive binop : Type :=
| Add | Sub | Mul | TrueDiv | FloorDiv | Mod | Pow.

(** ** The numeric libraries

    What numpy and scikit-image contribute.  The cell type [V] and the
    arithmetic on it are theirs; of [img_as_uint] the development uses the
    two facts of its documentation: the result is a 16-bit unsigned image,
    and an image that already is one is returned as it is. *)
Class ArrayLib (V : Type) : Type := {
  (** the step of the reduction [ndarray.min()] *)
  minimum : V -> V -> V;
  (** the cell conversion of [ndarray.astype] *)
  cast : np_dtype -> np_dtype -> V -> V;
  (** [a + b], [a - b], ... on arrays, with numpy's broadcasting *)
  np_arith : binop -> ndarray V -> ndarray V -> outcome (ndarray V);
  (** [skimage.img_as_uint], [skimage.img_as_float] *)
  img_as_uint : ndarray V -> outcome (ndarray V);
  img_as_float : ndarray V -> outcome (ndarray V);
  img_as_uint_dtype :
    forall a b, img_as_uint a = Return b -> arr_dtype b = uint16;
  img_as_uint_uint16 :
    forall a, arr_dtype a = uint16 -> img_as_uint a = Return a
}.

Section Arrays.
Context {V : Type} `{ArrayLib V}.

(** [a.min()] *)
Definition np_min (a : ndarray V) : outcome V :=
  match arr_flat a with
  | [] => Raise ValueError
  | x :: xs => Return (fold_left minimum xs x)
  end.

(** [a.astype(dt)] *)
Definition astype (a : ndarray V) (dt : np_dtype) : ndarray V :=
  mk_ndarray dt (arr_shape a) (map (cast (arr_dtype a) dt) (arr_flat a)).

(** The cell written at flat index [k] of [tgt] by
    [tgt[:r, :c] = data]. *)
Definition pasted_cell (tgt data : ndarray V) (k : nat) (old : V) : V :=
  let C := snd (arr_shape tgt) in
  let i := k / C in
  let j := k mod C in
  if (i <? fst (arr_shape data)) && (j <? snd (arr_shape data)) then
    match nth_error (arr_flat data) (i * snd (arr_shape data) + j) with
    | Some v =>
        if dtype_eqb (arr_dtype data) (arr_dtype tgt) then v
        else cast (arr_dtype data) (arr_dtype tgt) v
    | None => old
    end
  else old.

(** [tgt[:data.shape[0], :data.shape[1]] = data]: the slice is the top-left
    block of [tgt]; numpy refuses the assignment when [data] does not fit
    in it. *)
Definition assign_top_left (tgt data : ndarray V) : outcome (ndarray V) :=
  if (fst (arr_shape data) <=? fst (arr_shape tgt))
     && (snd (arr_shape data) <=? snd (arr_shape tgt))
  then Return (mk_ndarray (arr_dtype tgt) (arr_shape tgt)
                 (map (fun kv => pasted_cell tgt data (fst kv) (snd kv))
                      (combine (seq 0 (length (arr_flat tgt))) (arr_flat tgt))))
  else Raise ValueError.
End Arrays.

(** ** Images ([image.py], classes [Image], [CellImage], [ModuleImage],
       [PartialModuleImage]) *)

(** The imaging modalities: electroluminescence and photoluminescence. *)
Definition EL_IMAGE : Z := 0.
Definition PL_IMAGE : Z := 1.

Section Images.
Context {V : Type} `{ArrayLib V} {Transform : Type}.

(** An object of one of the four image classes, with the attributes its
    constructor stores.  [modality], [cols], [rows], [first_col],
    [first_row] and [transform] may be [None]. *)
Inductive image : Type :=
| MkImage (_data : ndarray V) (_path : string) (_modality : option Z)
| MkCellImage (_data : ndarray V) (_modality : option Z) (_path : string)
    (_row _col : Z)
| MkModuleImage (_data : ndarray V) (_modality : option Z) (_path : string)
    (_cols _rows : option Z) (_transform : option Transform)
| MkPartialModuleImage (_data : ndarray V) (_modality : option Z)
    (_path : string) (_cols _rows _first_col _first_row : option Z)
    (_transform : option Transform).

(** The properties [data], [path], [dtype], [shape], [modality]. *)
Definition data (self : image) : ndarray V :=
  match self with
  | MkImage d _ _ | MkCellImage d _ _ _ _ | MkModuleImage d _ _ _ _ _
  | MkPartialModuleImage d _ _ _ _ _ _ _ => d
  end.

Definition path (self : image) : string :=
  match self with
  | MkImage _ p _ | MkCellImage _ _ p _ _ | MkModuleImage _ _ p _ _ _
  | MkPartialModuleImage _ _ p _ _ _ _ _ => p
  end.

Definition modality (self : image) : option Z :=
  match self with
  | MkImage _ _ m | MkCellImage _ m _ _ _ | MkModuleImage _ m _ _ _ _
  | MkPartialModuleImage _ m _ _ _ _ _ _ => m
  end.

Definition dtype (self : image) : np_dtype := arr_dtype (data self).
Definition shape (self : image) : nat * nat := arr_shape (data self).

(** [type(x) == ModuleImage] and [isinstance(x, ModuleImage)] *)
Definition is_exactly_ModuleImage (self : image) : bool :=
  match self with
  | MkModuleImage _ _ _ _ _ _ => true
  | _ => false
  end.

(** The properties [cols] and [rows] exist on module images only. *)
Definition cols (self : image) : outcome (option Z) :=
  match self with
  | MkModuleImage _ _ _ c _ _ | MkPartialModuleImage _ _ _ c _ _ _ _ => Return c
  | _ => Raise AttributeError
  end.

Definition rows (self : image) : outcome (option Z) :=
  match self with
  | MkModuleImage _ _ _ _ r _ | MkPartialModuleImage _ _ _ _ r _ _ _ => Return r
  | _ => Raise AttributeError
  end.

(** [Image.__init__], lines 56-58: "convert to a common dtype". *)
Definition common_dtype (data : ndarray V) : outcome (ndarray V) :=
  if negb (dtype_eqb (arr_dtype data) float32)
     && negb (dtype_eqb (arr_dtype data) float64)
  then img_as_uint data
  else Return data.

Definition Image_init (data : ndarray V) (path : string)
    (modality : option Z) : outcome image :=
  d <- common_dtype data ;;
  Return (MkImage d path modality).

(** The subclasses call [super().__init__(data, path, modality)] and store
    their own attributes. *)
Definition CellImage_init (data : ndarray V) (modality : option Z)
    (path : string) (row col : Z) : outcome image :=
  d <- common_dtype data ;;
  Return (MkCellImage d modality path row col).

Definition ModuleImage_init (data : ndarray V) (modality : option Z)
    (path : string) (cols rows : option Z) (transform : option Transform)
    : outcome image :=
  d <- common_dtype data ;;
  Return (MkModuleImage d modality path cols rows transform).

Definition PartialModuleImage_init (data : ndarray V) (modality : option Z)
    (path : string) (cols rows first_col first_row : option Z)
    (transform : option Transform) : outcome image :=
  d <- common_dtype data ;;
  Return (MkPartialModuleImage d modality path cols rows first_col first_row
            transform).

(** [type(other).from_other(other, data = d)]: every parameter of the
    class's constructor except [data] is read back from the attribute of
    the same name, and the constructor of that class runs again. *)
Definition from_other_data (other : image) (d : ndarray V) : outcome image :=
  match other with
  | MkImage _ p m => Image_init d p m
  | MkCellImage _ m p r c => CellImage_init d m p r c
  | MkModuleImage _ m p c r t => ModuleImage_init d m p c r t
  | MkPartialModuleImage _ m p c r fc fr t =>
      PartialModuleImage_init d m p c r fc fr t
  end.

(** [Image.as_type] *)
Definition as_type (self : image) (dtype : np_dtype) : outcome image :=
  if dtype_eqb dtype float32 || dtype_eqb dtype float64 then
    d <- img_as_float (data self) ;; from_other_data self d
  else
    d <- img_as_uint (data self) ;; from_other_data self d.

(** [Image.__add__], [__sub__], [__mul__], [__truediv__], [__floordiv__],
    [__mod__], [__pow__]. *)
Definition Image_arith (op : binop) (self other : image) : outcome image :=
  match op with
  | TrueDiv =>
      if negb (is_float (dtype self)) || negb (is_float (dtype other))
      then Raise (RuntimeError "Images must be of type float")
      else d <- np_arith op (data self) (data other) ;; from_other_data self d
  | _ =>
      if negb (dtype_eqb (dtype self) (dtype other))
      then Raise (RuntimeError "Images must have the same datatype")
      else d <- np_arith op (data self) (data other) ;; from_other_data self d
  end.

(** [range(0, n)] on integers. *)
Definition arange (n : Z) : list Z := map Z.of_nat (seq 0 (Z.to_nat n)).

(** [x, y = np.mgrid[0:cols+1:1, 0:rows+1:1]] followed by [x.flatten()] and
    [y.flatten()]: [x[i, j] = i] and [y[i, j] = j], read row by row. *)
Definition mgrid_x_flat (cols rows : Z) : list Z :=
  flat_map (fun i => map (fun _ => i) (arange (rows + 1))) (arange (cols + 1)).

Definition mgrid_y_flat (cols rows : Z) : list Z :=
  flat_map (fun _ => arange (rows + 1)) (arange (cols + 1)).

(** [ModuleImage.grid]; [np.stack([xs, ys], axis=1)] pairs the two lists, a
    row of the (N,2) array being a pair.  The arrays of [np.mgrid] have
    [cols + 1] by [rows + 1] entries, and numpy refuses a negative dimension
    with a ValueError (an axis of length 0 is accepted). *)
Definition grid (self : image) : outcome (list (Z * Z)) :=
  match self with
  | MkModuleImage _ _ _ c r _ | MkPartialModuleImage _ _ _ c r _ _ _ =>
      match c, r with
      | Some c, Some r =>
          if (c + 1 <? 0)%Z || (r + 1 <? 0)%Z then Raise ValueError
          else Return (combine (mgrid_x_flat c r) (mgrid_y_flat c r))
      | _, _ => Exit GeometryNotInitialized
      end
  | _ => Raise AttributeError
  end.
End Images.

Arguments image V Transform : clear implicits.

(** ** Image sequences ([ImageSequence], [CellImageSequence],
       [ModuleImageSequence]) *)

Inductive seq_class : Type :=
| ImageSequence | CellImageSequence | ModuleImageSequence.

Definition optZ_eqb (a b : option Z) : bool :=
  match a, b with
  | Some x, Some y => Z.eqb x y
  | None, None => true
  | _, _ => false
  end.

Definition mem (name : string) (names : list string) : bool :=
  existsb (String.eqb name) names.

Section Sequences.
Context {V : Type} `{ArrayLib V} {Transform : Type}.
#[local] Abbreviation image := (image V Transform).

(** A sequence object: its class and the three attributes
    [ImageSequence.__init__] stores. *)
Record sequence : Type := mk_sequence {
  class_of : seq_class;
  _images : list image;
  _same_camera : bool;
  _allow_different_dtypes : bool
}.

(** The loop of [ImageSequence.__init__], lines 184-193: three checks per
    image, in this order, against the first image. *)
Fixpoint check_images (shape0 : nat * nat) (dtype0 : np_dtype)
    (modality0 : option Z) (same_camera allow_different_dtypes : bool)
    (images : list image) : outcome unit :=
  match images with
  | [] => Return tt
  | img :: rest =>
      if negb (dtype_eqb (dtype img) dtype0) && negb allow_different_dtypes
      then Exit MixedDtypes
      else if negb (shape_eqb (shape img) shape0) && same_camera
      then Exit MixedShapes
      else if negb (optZ_eqb (modality img) modality0)
      then Exit MixedModalities
      else check_images shape0 dtype0 modality0 same_camera
             allow_different_dtypes rest
  end.

(** [ImageSequence.__init__], run for an object of class [cls]. *)
Definition ImageSequence_init (cls : seq_class) (images : list image)
    (same_camera allow_different_dtypes : bool) : outcome sequence :=
  match images with
  | [] => Exit EmptySequence
  | first :: _ =>
      _ <- check_images (shape first) (dtype first) (modality first)
             same_camera allow_different_dtypes images ;;
      Return (mk_sequence cls images same_camera allow_different_dtypes)
  end.

(** [CellImageSequence.__init__]: [super().__init__(images, False, copy)]. *)
Definition CellImageSequence_init (images : list image) (copy : bool)
    : outcome sequence :=
  ImageSequence_init CellImageSequence images false copy.

(** The loop of [ModuleImageSequence.__init__], lines 443-449. *)
Fixpoint check_geometry (cols0 rows0 : option Z) (images : list image)
    : outcome unit :=
  match images with
  | [] => Return tt
  | img :: rest =>
      c <- cols img ;;
      if negb (optZ_eqb c cols0) then Exit DifferentModuleConfigurations
      else
        r <- rows img ;;
        if negb (optZ_eqb r rows0) then Exit DifferentModuleConfigurations
        else check_geometry cols0 rows0 rest
  end.

(** [ModuleImageSequence.__init__]: [images[0]] is read before the base
    constructor runs. *)
Definition ModuleImageSequence_init (images : list image)
    (same_camera allow_different_dtypes : bool) : outcome sequence :=
  match images with
  | [] => Raise IndexError
  | first :: _ =>
      cols0 <- cols first ;;
      rows0 <- rows first ;;
      _ <- check_geometry cols0 rows0 images ;;
      ImageSequence_init ModuleImageSequence images same_camera
        allow_different_dtypes
  end.

(** *** Calling a constructor with keyword arguments *)

(** The argument values that reach a sequence constructor. *)
Inductive value : Type :=
| VImages (l : list image)
| VBool (b : bool).

Definition kwargs : Type := list (string * value).

Fixpoint lookup (name : string) (kw : kwargs) : option value :=
  match kw with
  | [] => None
  | (k, v) :: rest => if String.eqb name k then Some v else lookup name rest
  end.

(** [inspect.getfullargspec(cls.__init__)[0]] without [self]. *)
Definition init_params (cls : seq_class) : list string :=
  match cls with
  | ImageSequence | ModuleImageSequence =>
      ["images"; "same_camera"; "allow_different_dtypes"]%string
  | CellImageSequence => ["images"; "copy"]%string
  end.

(** Python's argument binding: positional arguments fill the parameters in
    order; a keyword that names no parameter, or one already filled, is a
    [TypeError]. *)
Definition bind_arguments (params : list string) (pos : list value)
    (kw : kwargs) : outcome kwargs :=
  if length params <? length pos then Raise TypeError
  else
    let bound := combine params pos in
    if existsb (fun kv => negb (mem (fst kv) params)) kw then Raise TypeError
    else if existsb (fun kv => mem (fst kv) (map fst bound)) kw
    then Raise TypeError
    else Return (bound ++ kw).

(** A value used as the image list ([len] of a bool is a [TypeError]) and
    as a flag (truth value). *)
Definition as_images (v : value) : outcome (list image) :=
  match v with
  | VImages l => Return l
  | VBool _ => Raise TypeError
  end.

Definition truth (v : value) : bool :=
  match v with
  | VBool b => b
  | VImages l => match l with [] => false | _ :: _ => true end
  end.

Definition flag_or (default : bool) (o : option value) : bool :=
  match o with
  | Some v => truth v
  | None => default
  end.

(** [cls( *pos, **kw )]: bind the arguments, apply the defaults
    ([allow_different_dtypes = False], [copy = True]), a missing required
    parameter being a [TypeError], and run the constructor. *)
Definition new_sequence (cls : seq_class) (pos : list value) (kw : kwargs)
    : outcome sequence :=
  args <- bind_arguments (init_params cls) pos kw ;;
  match lookup "images" args with
  | None => Raise TypeError
  | Some vi =>
      match cls with
      | CellImageSequence =>
          images <- as_images vi ;;
          CellImageSequence_init images (flag_or true (lookup "copy" args))
      | ImageSequence =>
          match lookup "same_camera" args with
          | None => Raise TypeError
          | Some sc =>
              images <- as_images vi ;;
              ImageSequence_init ImageSequence images (truth sc)
                (flag_or false (lookup "allow_different_dtypes" args))
          end
      | ModuleImageSequence =>
          match lookup "same_camera" args with
          | None => Raise TypeError
          | Some sc =>
              images <- as_images vi ;;
              ModuleImageSequence_init images (truth sc)
                (flag_or false (lookup "allow_different_dtypes" args))
          end
      end
  end.

(** [getattr(other, name)] on a sequence object. *)
Definition getattr (other : sequence) (name : string) : outcome value :=
  if String.eqb name "_images" then Return (VImages (_images other))
  else if String.eqb name "_same_camera" then Return (VBool (_same_camera other))
  else if String.eqb name "_allow_different_dtypes"
  then Return (VBool (_allow_different_dtypes other))
  else Raise AttributeError.

(** [_Base.from_other] for a sequence class: every constructor parameter
    not overridden is read from the attribute named [_] + parameter. *)
Definition from_other (cls : seq_class) (other : sequence) (kw : kwargs)
    : outcome sequence :=
  other_args <-
    mapM (fun name => v <- getattr other (String.append "_" name) ;;
                      Return (name, v))
         (filter (fun name => negb (mem name (map fst kw))) (init_params cls)) ;;
  new_sequence cls [] (kw ++ other_args).

(** [ImageSequence.as_type] *)
Definition ImageSequence_as_type (self : sequence) (dtype : np_dtype)
    : outcome sequence :=
  result <- mapM (fun img => as_type img dtype) (_images self) ;;
  from_other (class_of self) self [("images"%string, VImages result)].

(** [ImageSequence.__add__] ... [__pow__]:
    [[x op y for x, y in zip(self.images, other.images)]], then
    [type(self).from_other(self, images = res)]. *)
Definition ImageSequence_arith (op : binop) (self other : sequence)
    : outcome sequence :=
  res <- mapM (fun xy => Image_arith op (fst xy) (snd xy))
           (combine (_images self) (_images other)) ;;
  from_other (class_of self) self [("images"%string, VImages res)].

(** The properties [dtype], [shape] and [__len__]. *)
Definition ImageSequence_dtype (self : sequence) : outcome (option np_dtype) :=
  if negb (_allow_different_dtypes self) then
    match _images self with
    | first :: _ => Return (Some (dtype first))
    | [] => Raise IndexError
    end
  else Return None.

Definition ImageSequence_shape (self : sequence) : outcome (option (nat * nat)) :=
  if _same_camera self then
    match _images self with
    | first :: _ => Return (Some (shape first))
    | [] => Raise IndexError
    end
  else Return None.

Definition ImageSequence_len (self : sequence) : nat := length (_images self).
End Sequences.

Arguments sequence V Transform : clear implicits.
Arguments value V Transform : clear implicits.
Arguments kwargs V Transform : clear implicits.

(** ** The sequence adapter ([_sequence]) *)

Section Adapter.
Context {V : Type} `{ArrayLib V} {Transform : Type}.
#[local] Abbreviation image := (image V Transform).
#[local] Abbreviation sequence := (sequence V Transform).

(** The Python values that pass through the adapter: an image, a sequence, a
    tuple, or any other object. *)
#[warnings="-register-all"]
Inductive pyvalue : Type :=
| PyImage (i : image)
| PySequence (s : sequence)
| PyTuple (items : list pyvalue)
| PyOther (id : nat).

(** The decorated function, applied to its positional arguments (keyword
    arguments are passed on untouched and are part of the function here). *)
Definition function : Type := list pyvalue -> outcome pyvalue.

(** Lines 461-466: [args[0]] that is no [ImageSequence] is put into a
    one-element sequence.  An object that is no image has none of the
    attributes the constructor reads. *)
Definition wrap_first (a0 : pyvalue) : outcome (pyvalue * bool) :=
  match a0 with
  | PySequence _ => Return (a0, false)
  | PyImage i =>
      s <- (if is_exactly_ModuleImage i
            then new_sequence ModuleImageSequence [VImages [i]]
                   [("same_camera"%string, VBool false)]
            else new_sequence ImageSequence [VImages [i]]
                   [("same_camera"%string, VBool false)]) ;;
      Return (PySequence s, true)
  | PyTuple _ | PyOther _ => Raise AttributeError
  end.

(** Lines 468-473.  [res[0] = res[0].images[0]] evaluates its right-hand side
    and then assigns to an item of a tuple, which Python refuses. *)
Definition unwrap_result (res : pyvalue) : outcome pyvalue :=
  match res with
  | PyTuple [] => Raise IndexError
  | PyTuple (PySequence s :: _) =>
      match _images s with
      | [] => Raise IndexError
      | _ :: _ => Raise TypeError
      end
  | PySequence s =>
      match _images s with
      | [] => Raise IndexError
      | first :: _ => Return (PyImage first)
      end
  | _ => Return res
  end.

Definition wrapper_sequence (disable_unwrap : bool) (func : function)
    (args : list pyvalue) : outcome pyvalue :=
  match args with
  | [] => Raise IndexError
  | a0 :: rest =>
      w <- wrap_first a0 ;;
      res <- func (fst w :: rest) ;;
      if snd w && negb disable_unwrap then unwrap_result res else Return res
  end.

(** The arguments of [_sequence] itself: the function to decorate, or a
    flag. *)
Inductive decorator_arg : Type :=
| ArgFunction (f : function)
| ArgFlag (b : bool).

Inductive decorated : Type :=
| Wrapper (w : function)
| Decorator (d : function -> function).

(** [_sequence( *args )], lines 476-481. *)
Definition _sequence (args : list decorator_arg) : decorated :=
  match args with
  | [ArgFunction f] => Wrapper (wrapper_sequence false f)
  | [ArgFlag b] => Decorator (wrapper_sequence b)
  | _ => Decorator (wrapper_sequence false)
  end.
End Adapter.

Arguments pyvalue V Transform : clear implicits.
Arguments function V Transform : clear implicits.

(** ** The bulk reader ([io.py]) *)

Section Reader.
Context {V : Type} `{ArrayLib V} {Transform : Type}.
#[local] Abbreviation image := (image V Transform).
#[local] Abbreviation sequence := (sequence V Transform).

(** [_read_module_image]; [img] is what [io.imread(path, as_gray=True)]
    decoded.  Lines 37-39 change the byte order of a big-endian array and
    nothing else. *)
Definition _read_module_image (img : ndarray V) (path : string)
    (modality : option Z) (is_partial_module : bool) (cols rows : option Z)
    : outcome image :=
  if is_partial_module
  then PartialModuleImage_init img modality path cols rows None None None
  else ModuleImage_init img modality path cols rows None.

(** Lines 79 and 81: [np.all] of the comparisons with the first element. *)
Definition homogeneous_types (imgs : list image) : bool :=
  match imgs with
  | [] => true
  | first :: _ => forallb (fun img => dtype_eqb (dtype img) (dtype first)) imgs
  end.

Definition homogeneous_shapes (shapes : list (nat * nat)) : bool :=
  match shapes with
  | [] => true
  | first :: _ => forallb (fun s => shape_eqb s first) shapes
  end.

(** The body of the loop of lines 89-97. *)
Definition rebuild (same_types same_shapes : bool) (target_shape : nat * nat)
    (img : image) : outcome image :=
  let data0 := data img in
  let data1 := if negb same_types then astype data0 float64 else data0 in
  data2 <- (if negb same_shapes then
              m <- np_min data1 ;;
              assign_top_left (np_full target_shape m (arr_dtype data1)) data1
            else Return data1) ;;
  c <- cols img ;;
  r <- rows img ;;
  ModuleImage_init data2 (modality img) (path img) c r None.

(** Lines 79-98, the branch [not same_camera].  The warning of line 85 is
    logged and changes nothing. *)
Definition resolve (imgs : list image) : outcome (list image) :=
  let same_types := homogeneous_types imgs in
  let shapes := map shape imgs in
  let same_shapes := homogeneous_shapes shapes in
  target_shape <- np_max_axis0 shapes ;;
  if negb same_types || negb same_shapes
  then mapM (rebuild same_types same_shapes target_shape) imgs
  else Return imgs.

(** Lines 71-98: [files] are the paths found by the glob patterns, sorted,
    each with its decoded content. *)
Definition read_and_resolve (files : list (string * ndarray V))
    (modality : option Z) (same_camera is_partial_module : bool)
    (cols rows : option Z) (N : Z) : outcome (list image) :=
  let imgpaths :=
    if (0 <? N)%Z && (N <? Z.of_nat (length files))%Z
    then firstn (Z.to_nat N) files else files in
  imgs <- mapM (fun f => _read_module_image (snd f) (fst f) modality
                           is_partial_module cols rows) imgpaths ;;
  if negb same_camera then resolve imgs else Return imgs.

(** [_read_module_images]; line 100 is
    [ModuleImageSequence(imgs, copy=False, same_camera=same_camera,
    allow_different_dtypes=allow_different_dtypes)]. *)
Definition _read_module_images (files : list (string * ndarray V))
    (modality : option Z) (same_camera is_partial_module : bool)
    (cols rows : option Z) (N : Z) (allow_different_dtypes : bool)
    : outcome sequence :=
  imgs <- read_and_resolve files modality same_camera is_partial_module
            cols rows N ;;
  new_sequence ModuleImageSequence [VImages imgs]
    [("copy"%string, VBool false);
     ("same_camera"%string, VBool same_camera);
     ("allow_different_dtypes"%string, VBool allow_different_dtypes)].
End Reader.

(** ** Further operations of [image.py] *)

(** Python's slices [l[:stop]] and [l[start:]] on a list: a negative bound
    counts from the end, a bound out of range is clipped. *)
Definition slice_bound (n i : Z) : nat :=
  Z.to_nat (if (i <? 0)%Z then Z.max 0 (i + n) else Z.min i n).

Definition py_slice_until {A : Type} (l : list A) (stop : Z) : list A :=
  firstn (slice_bound (Z.of_nat (length l)) stop) l.

Definition py_slice_from {A : Type} (l : list A) (start : Z) : list A :=
  skipn (slice_bound (Z.of_nat (length l)) start) l.

Section Operations.
Context {V : Type} `{ArrayLib V} {Transform : Type}.
#[local] Abbreviation image := (image V Transform).
#[local] Abbreviation sequence := (sequence V Transform).

(** [ImageSequence.apply_image_data]; [fn] is the callable with its further
    arguments already given. *)
Definition apply_image_data (self : sequence)
    (fn : ndarray V -> outcome (ndarray V)) : outcome sequence :=
  result <- mapM (fun img => res <- fn (data img) ;; from_other_data img res)
              (_images self) ;;
  from_other (class_of self) self [("images"%string, VImages result)].

(** The property [modality]. *)
Definition ImageSequence_modality (self : sequence) : outcome (option Z) :=
  match _images self with
  | first :: _ => Return (modality first)
  | [] => Raise IndexError
  end.

(** The images that [head] and [tail] pass to [_show]:
    [self.images[:N]] and [self.images[-N:]]. *)
Definition head_images (self : sequence) (N : Z) : list image :=
  py_slice_until (_images self) N.

Definition tail_images (self : sequence) (N : Z) : list image :=
  py_slice_from (_images self) (- N).

(** ** Further operations of [io.py] *)

(** [read_module_image], [read_partial_module_image], [read_module_images]
    and [read_partial_module_images]. *)
Definition read_module_image (img : ndarray V) (path : string)
    (modality cols rows : option Z) : outcome image :=
  _read_module_image img path modality false cols rows.

Definition read_partial_module_image (img : ndarray V) (path : string)
    (modality cols rows : option Z) : outcome image :=
  _read_module_image img path modality true cols rows.

Definition read_module_images (files : list (string * ndarray V))
    (modality : option Z) (same_camera : bool) (cols rows : option Z) (N : Z)
    (allow_different_dtypes : bool) : outcome sequence :=
  _read_module_images files modality same_camera false cols rows N
    allow_different_dtypes.

Definition read_partial_module_images (files : list (string * ndarray V))
    (modality : option Z) (same_camera : bool) (cols rows : option Z) (N : Z)
    (allow_different_dtypes : bool) : outcome sequence :=
  _read_module_images files modality same_camera true cols rows N
    allow_different_dtypes.
End Operations.

(** *** File names of [save_images] *)

(** The decimal digits of a natural number. *)
Definition decimal (n : nat) : string :=
  NilZero.string_of_uint (Nat.to_uint n).

(** [{:02d}]: at least two characters, padded with a zero after the sign. *)
Definition format_02d (z : Z) : string :=
  if (z <? 0)%Z then String.append "-" (decimal (Z.to_nat (- z)))
  else if (z <? 10)%Z then String.append "0" (decimal (Z.to_nat z))
  else decimal (Z.to_nat z).

(** ['{}_row{:02d}_col{:02d}{}'.format(stem, row, col, suffix)] *)
Definition cell_file_name (stem suffix : string) (row col : Z) : string :=
  String.append stem
    (String.append "_row"
       (String.append (format_02d row)
          (String.append "_col" (String.append (format_02d col) suffix)))).

Section Saving.
Context {V : Type} {Transform : Type}.
#[local] Abbreviation image := (image V Transform).
#[local] Abbreviation sequence := (sequence V Transform).

(** What pathlib gives for a path: [path.name], [path.stem] and
    [path.suffix]. *)
Variables path_name path_stem path_suffix : string -> string.

(** Lines 195-198 of [save_images]: the file name of one image. *)
Definition save_name (image : image) : string :=
  match image with
  | MkCellImage _ _ p row col =>
      cell_file_name (path_stem p) (path_suffix p) row col
  | _ => path_name (path image)
  end.

(** [save_images]: the files written, in order, as pairs of the name under
    the target directory and the data handed to [io.imsave]. *)
Definition save_images (sequence : sequence) : list (string * ndarray V) :=
  map (fun image => (save_name image, data image)) (_images sequence).
End Saving.

(** ** Dataset keys ([demo.py]) *)

(** [s.split(sep)] for a separator of one character. *)
Fixpoint split (sep : ascii) (s : string) : list string :=
  match s with
  | EmptyString => [EmptyString]
  | String c rest =>
      if Ascii.eqb c sep then EmptyString :: split sep rest
      else match split sep rest with
           | piece :: pieces => String c piece :: pieces
           | [] => [String c EmptyString]
           end
  end.

Definition semicolon : ascii := ";"%char.
Definition comma : ascii := ","%char.
Definition double_quote : ascii :=
  Ascii false true false false false true false false.

Definition _ds_keys : list (string * string) :=
  [("20191219_poly10x6", "1B5fQPLvStuMvuYJ5CxbzyxfwuWQdfNVE")]%string.

(** [d[name]] on a dict given by its insertions in order: the last insertion
    of a key is the one that counts. *)
Fixpoint dict_get (name : string) (d : list (string * string)) : option string :=
  match d with
  | [] => None
  | (k, v) :: rest =>
      match dict_get name rest with
      | Some v' => Some v'
      | None => if String.eqb name k then Some v else None
      end
  end.

(** [{x.split(',')[0]: x.split(',')[1] for x in keys}]: an entry without a
    comma has no second field. *)
Definition key_entry (x : string) : outcome (string * string) :=
  match split comma x with
  | k :: v :: _ => Return (k, v)
  | _ => Raise IndexError
  end.

(** The message of the RuntimeError of lines 24-25; it contains [{}]
    unformatted and the indentation of the continuation line. *)
Definition dataset_not_found : string :=
  String.append "The specified dataset "
    (String double_quote
       (String.append "{}"
          (String double_quote
             (String.append " could not be found. Maybe you tried "
                (String.append "                "
                   "to access a protected dataset and didn't set PVINSPECT_KEY_FILE environment variable?"))))).

(** [_get_dataset_key]; [env] is [os.getenv('PVINSPECT_KEYS')], None when the
    variable is not set.  The [print] of line 20 is not modelled. *)
Definition _get_dataset_key (env : option string) (name : string)
    : outcome string :=
  match dict_get name _ds_keys with
  | Some key => Return key
  | None =>
      match env with
      | None => Raise AttributeError
      | Some s =>
          keys <- mapM key_entry (split semicolon s) ;;
          match dict_get name keys with
          | Some key => Return key
          | None => Raise (RuntimeError dataset_not_found)
          end
      end
  end.

(** ** A reference implementation of the numeric libraries

    Cells are rationals.  The integer types are exact (arithmetic wraps to the
    range of the type, conversions follow scikit-image's rescaling rules:
    unsigned 8-bit values are multiplied by 257, negative values of a signed
    type are clipped to zero and its positive values scaled to 0..65535).
    The float types are idealised: no rounding, no infinities, [x / 0 = 0],
    and a power takes the integral part of its exponent. *)
Module Reference.

Definition Qlt_bool (a b : Q) : bool := negb (Qle_bool b a).

Definition minimum (a b : Q) : Q := if Qle_bool a b then a else b.

Definition floorQ (q : Q) : Q := inject_Z (Qfloor q).

(** [np.rint]: to the nearest integer, halves to the even one. *)
Definition rint (q : Q) : Q :=
  let f := Qfloor q in
  let r := Qred (q - inject_Z f) in
  if Qlt_bool r (1 # 2) then inject_Z f
  else if Qlt_bool (1 # 2) r then inject_Z (f + 1)
  else if Z.even f then inject_Z f else inject_Z (f + 1).

Definition clip (lo hi q : Q) : Q :=
  if Qlt_bool q lo then lo else if Qlt_bool hi q then hi else q.

(** The range of an integer type, as (minimum, number of values). *)
Definition int_range (d : np_dtype) : option (Z * Z) :=
  match d with
  | bool_ => Some (0, 2)%Z
  | uint8 => Some (0, 256)%Z
  | uint16 => Some (0, 65536)%Z
  | int16 => Some (-32768, 65536)%Z
  | _ => None
  end.

(** A value stored in a cell of type [d]: integers wrap around. *)
Definition store (d : np_dtype) (q : Q) : Q :=
  match int_range d with
  | Some (lo, n) => inject_Z (lo + (Qfloor q - lo) mod n)
  | None => Qred q
  end.

Definition cast (from to : np_dtype) (q : Q) : Q :=
  match int_range to with
  | Some _ => store to (inject_Z (Z.quot (Qnum q) (Z.pos (Qden q))))
  | None => Qred q
  end.

Definition apply_op (op : binop) (a b : Q) : Q :=
  match op with
  | Add => a + b
  | Sub => a - b
  | Mul => a * b
  | TrueDiv => a / b
  | FloorDiv => floorQ (a / b)
  | Mod => a - floorQ (a / b) * b
  | Pow => Qpower a (Qfloor b)
  end.

(** numpy's result type.  Arithmetic is applied to the data of constructed
    images only, that is to uint16, float32 and float64 arrays. *)
Definition result_dtype (op : binop) (a b : np_dtype) : np_dtype :=
  match op with
  | TrueDiv => if dtype_eqb a float32 && dtype_eqb b float32 then float32 else float64
  | _ => if dtype_eqb a b then a else float64
  end.

(** Broadcasting of one axis: equal lengths, or one of them 1. *)
Definition broadcast (m n : nat) : option nat :=
  if m =? n then Some m
  else if m =? 1 then Some n
  else if n =? 1 then Some m
  else None.

Definition cell_at (a : ndarray Q) (i j : nat) : Q :=
  let i' := if fst (arr_shape a) =? 1 then 0 else i in
  let j' := if snd (arr_shape a) =? 1 then 0 else j in
  nth (i' * snd (arr_shape a) + j') (arr_flat a) 0%Q.

Definition np_arith (op : binop) (a b : ndarray Q) : outcome (ndarray Q) :=
  match broadcast (fst (arr_shape a)) (fst (arr_shape b)),
        broadcast (snd (arr_shape a)) (snd (arr_shape b)) with
  | Some r, Some c =>
      let dt := result_dtype op (arr_dtype a) (arr_dtype b) in
      Return (mk_ndarray dt (r, c)
                (flat_map (fun i =>
                   map (fun j => store dt (apply_op op (cell_at a i j) (cell_at b i j)))
                       (seq 0 c))
                   (seq 0 r)))
  | _, _ => Raise ValueError
  end.

Definition out_of_unit_range (cells : list Q) : bool :=
  existsb (fun q => Qlt_bool q (-1) || Qlt_bool 1 q) cells.

Definition img_as_uint (a : ndarray Q) : outcome (ndarray Q) :=
  match arr_dtype a with
  | uint16 => Return a
  | bool_ =>
      Return (mk_ndarray uint16 (arr_shape a)
                (map (fun q => Qred (q * 65535)) (arr_flat a)))
  | uint8 =>
      Return (mk_ndarray uint16 (arr_shape a)
                (map (fun q => Qred (q * 257)) (arr_flat a)))
  | int16 =>
      Return (mk_ndarray uint16 (arr_shape a)
                (map (fun q => clip 0 65535 (floorQ (q * 32769 / 16384)))
                     (arr_flat a)))
  | float32 | float64 =>
      if out_of_unit_range (arr_flat a) then Raise ValueError
      else Return (mk_ndarray uint16 (arr_shape a)
                     (map (fun q => clip 0 65535 (rint (q * 65535))) (arr_flat a)))
  | complex128 => Raise ValueError
  end.

Definition img_as_float (a : ndarray Q) : outcome (ndarray Q) :=
  match arr_dtype a with
  | float32 | float64 => Return a
  | bool_ => Return (mk_ndarray float64 (arr_shape a) (arr_flat a))
  | uint8 =>
      Return (mk_ndarray float64 (arr_shape a)
                (map (fun q => Qred (q / 255)) (arr_flat a)))
  | uint16 =>
      Return (mk_ndarray float64 (arr_shape a)
                (map (fun q => Qred (q / 65535)) (arr_flat a)))
  | int16 =>
      Return (mk_ndarray float64 (arr_shape a)
                (map (fun q => Qred ((q * 2 + 1) / 65535)) (arr_flat a)))
  | complex128 => Raise ValueError
  end.

Lemma img_as_uint_dtype (a b : ndarray Q) :
  img_as_uint a = Return b -> arr_dtype b = uint16.
Proof.
  unfold img_as_uint.
  destruct (arr_dtype a) eqn:E;
    try destruct (out_of_unit_range _);
    intros Hr; inversion Hr; subst; auto.
Qed.

Lemma img_as_uint_uint16 (a : ndarray Q) :
  arr_dtype a = uint16 -> img_as_uint a = Return a.
Proof.
  unfold img_as_uint. intros ->. reflexivity.
Qed.

#[export] Instance reference : ArrayLib Q :=
  Build_ArrayLib minimum cast np_arith img_as_uint img_as_float
    img_as_uint_dtype img_as_uint_uint16.

End Reference.

(** * The vocabulary of the statements *)

Section Vocabulary.
Context {V : Type} `{ArrayLib V} {Transform : Type}.
#[local] Abbreviation image := (image V Transform).
#[local] Abbreviation sequence := (sequence V Transform).

(** The three element types an image can have once it is constructed. *)
Definition image_dtype (d : np_dtype) : Prop :=
  d = uint16 \/ d = float32 \/ d = float64.

(** The same object with other data, as the constructor stores it. *)
Definition with_data (img : image) (d : ndarray V) : image :=
  match img with
  | MkImage _ p m => MkImage d p m
  | MkCellImage _ m p r c => MkCellImage d m p r c
  | MkModuleImage _ m p c r t => MkModuleImage d m p c r t
  | MkPartialModuleImage _ m p c r fc fr t =>
      MkPartialModuleImage d m p c r fc fr t
  end.

(** An image built by the constructor of one of the four classes. *)
Inductive constructed (d : ndarray V) : outcome image -> Prop :=
| by_Image p m : constructed d (Image_init d p m)
| by_CellImage m p r c : constructed d (CellImage_init d m p r c)
| by_ModuleImage m p c r t : constructed d (ModuleImage_init d m p c r t)
| by_PartialModuleImage m p c r fc fr t :
    constructed d (PartialModuleImage_init d m p c r fc fr t).

(** The one-element sequence a single image is put into. *)
Definition singleton (img : image) : sequence :=
  mk_sequence
    (if is_exactly_ModuleImage img then ModuleImageSequence else ImageSequence)
    [img] false false.

(** An image as [_read_module_image] builds it from one call of the reader:
    a module image with the modality and geometry of the call, one of the
    three image dtypes, and at least one pixel. *)
Definition from_reader (m0 c0 r0 : option Z) (img : image) : Prop :=
  modality img = m0 /\ cols img = Return c0 /\ rows img = Return r0 /\
  image_dtype (dtype img) /\ well_formed (data img) /\ arr_flat (data img) <> [].

(** [new] is [img] put on a canvas of shape [target]: a [ModuleImage] with
    the modality, path and geometry of [img], whose data has the target
    shape and the dtype of [img], holds the data of [img] in the top-left
    block and the minimum of [img]'s own data everywhere else. *)
Definition padded (target : nat * nat) (img new : image) : Prop :=
  exists canvas m c r,
    np_min (data img) = Return m /\
    cols img = Return c /\ rows img = Return r /\
    new = MkModuleImage canvas (modality img) (path img) c r None /\
    arr_shape canvas = target /\
    arr_dtype canvas = dtype img /\
    forall i j, i < fst target -> j < snd target ->
      item canvas i j =
        if (i <? fst (shape img)) && (j <? snd (shape img))
        then item (data img) i j else Some m.

(** A module image of the given modality, geometry and dtype. *)
Definition uniform (m0 c0 r0 : option Z) (d : np_dtype) (img : image) : Prop :=
  modality img = m0 /\ cols img = Return c0 /\ rows img = Return r0 /\
  dtype img = d.
(** [img] agrees with [first] on what the constructor compares: the dtype
    unless waived, the shape when the camera is the same, the modality. *)
Definition agrees (same_camera allow : bool) (first img : image) : Prop :=
  (allow = false -> dtype img = dtype first) /\
  (same_camera = true -> shape img = shape first) /\
  modality img = modality first.

(** A list of images the base constructor accepts. *)
Definition valid_images (same_camera allow : bool) (images : list image)
    : Prop :=
  match images with
  | [] => False
  | first :: _ => Forall (agrees same_camera allow first) images
  end.

(** Module images of one geometry. *)
Definition one_geometry (images : list image) : Prop :=
  exists c0 r0,
    Forall (fun img => cols img = Return c0 /\ rows img = Return r0) images.

End Vocabulary.

(** Strings: a character occurs in a string; pieces joined by a separator;
    the number a string of digits denotes. *)
Fixpoint has_char (c : ascii) (s : string) : bool :=
  match s with
  | EmptyString => false
  | String a rest => Ascii.eqb a c || has_char c rest
  end.

Fixpoint join (sep : ascii) (pieces : list string) : string :=
  match pieces with
  | [] => EmptyString
  | [x] => x
  | x :: rest => String.append x (String sep (join sep rest))
  end.

Definition parse_decimal (s : string) : option nat :=
  option_map Nat.of_uint (NilEmpty.uint_of_string s).

(** The value of PVINSPECT_KEYS that lists the given names and keys:
    [name,key;name,key;...]. *)
Definition encode_keys (entries : list (string * string)) : string :=
  join semicolon
    (map (fun kv => String.append (fst kv) (String comma (snd kv))) entries).

(** A name or key that contains neither separator. *)
Definition plain_field (x : string) : Prop :=
  has_char semicolon x = false /\ has_char comma x = false.

(** * Concrete inputs

    Arrays, images and sequences over the reference implementation, used
    where a statement is evaluated. *)
Module Examples.
Import Reference.

(** An [r] x [c] array holding 1, 2, 3, ... row by row. *)
Definition ramp (dt : np_dtype) (r c : nat) : ndarray Q :=
  mk_ndarray dt (r, c)
    (map (fun k => inject_Z (Z.of_nat k + 1)) (seq 0 (r * c))).

(** A module image of a 10 x 6 module, as the reader builds it. *)
Definition module_image (file : string * ndarray Q) : image Q unit :=
  MkModuleImage (snd file) (Some EL_IMAGE) (fst file) (Some 10%Z) (Some 6%Z)
    None.

(** Three decoded files of dtype uint16 and of the shapes (10,10), (10,12)
    and (12,10). *)
Definition three_files : list (string * ndarray Q) :=
  [("a.png"%string, ramp uint16 10 10);
   ("b.png"%string, ramp uint16 10 12);
   ("c.png"%string, ramp uint16 12 10)].

Definition three_shapes : list (image Q unit) := map module_image three_files.

(** Two decoded files of one shape, one uint16 and one float32. *)
Definition quarters : ndarray Q :=
  mk_ndarray float32 (2, 2) [0; 1 # 4; 1 # 2; 1]%Q.

Definition mixed_files : list (string * ndarray Q) :=
  [("a.png"%string, ramp uint16 2 2); ("b.tif"%string, quarters)].

Definition mixed_types : list (image Q unit) := map module_image mixed_files.

(** Plain images: two uint16 rows, a float32 and a float64 one. *)
Definition row (dt : np_dtype) (x y : Q) : ndarray Q :=
  mk_ndarray dt (1, 2) [x; y].

Definition plain (name : string) (a : ndarray Q) : image Q unit :=
  MkImage a name None.

Definition img_1_2 : image Q unit := plain "a.png" (row uint16 1 2).
Definition img_3_4 : image Q unit := plain "b.png" (row uint16 3 4).
Definition img_10_20 : image Q unit := plain "c.png" (row uint16 10 20).
Definition img_f32 : image Q unit := plain "d.tif" (row float32 (1 # 2) 1).
Definition img_f64 : image Q unit := plain "e.tif" (row float64 (1 # 4) 2).

(** A sequence of two images and a sequence of one. *)
Definition two_images : sequence Q unit :=
  mk_sequence ImageSequence [img_1_2; img_3_4] true false.

Definition one_image : sequence Q unit :=
  mk_sequence ImageSequence [img_10_20] true false.

(** Two signed 16-bit arrays that differ, and an 8-bit one. *)
Definition minus_one : ndarray Q := mk_ndarray int16 (1, 1) [-1]%Q.
Definition minus_two : ndarray Q := mk_ndarray int16 (1, 1) [-2]%Q.
Definition bytes : ndarray Q := row uint8 0 255.

(** Two cell images of one modality, uint16 and float32. *)
Definition cell (a : ndarray Q) (col : Z) : image Q unit :=
  MkCellImage a (Some EL_IMAGE) "cell.png" 0%Z col.

Definition cell_u16 : image Q unit := cell (row uint16 1 2) 0%Z.
Definition cell_f32 : image Q unit := cell (row float32 (1 # 2) 1) 1%Z.

(** A module image of a module with 2 columns and 1 row of cells. *)
Definition small_module : image Q unit :=
  MkModuleImage (row uint16 1 2) (Some EL_IMAGE) "m.png" (Some 2%Z) (Some 1%Z)
    None.

(** A module image whose [cols] is negative. *)
Definition negative_module : image Q unit :=
  MkModuleImage (row uint16 1 2) (Some EL_IMAGE) "n.png" (Some (-2)%Z)
    (Some 1%Z) None.

(** An image with a modality, a partial module image, and what is needed
    for the examples of saving and of dataset keys. *)
Definition img_el : image Q unit :=
  MkImage (row uint16 5 6) "f.png" (Some EL_IMAGE).

Definition partial_image (file : string * ndarray Q) : image Q unit :=
  MkPartialModuleImage (snd file) (Some EL_IMAGE) (fst file) (Some 10%Z)
    (Some 6%Z) (Some 1%Z) (Some 2%Z) None.

Definition partial_images : list (image Q unit) :=
  [partial_image ("p.png"%string, ramp uint16 2 2);
   partial_image ("q.png"%string, ramp uint16 2 3)].

Definition cell_sequence : sequence Q unit :=
  mk_sequence CellImageSequence [cell_u16] false true.

Definition float_sequence : sequence Q unit :=
  mk_sequence ImageSequence [img_f32] true false.

(** A function on image data: the cells in reverse order. *)
Definition flip (a : ndarray Q) : outcome (ndarray Q) :=
  Return (mk_ndarray (arr_dtype a) (arr_shape a) (rev (arr_flat a))).

Definition foo_stem (p : string) : string := "foo".
Definition foo_suffix (p : string) : string := ".png".
Definition whole_name (p : string) : string := p.

Definition some_keys : list (string * string) :=
  [("a", "1"); ("b", "2"); ("a", "3")]%string.

End Examples.

(** * Properties *)

(** ** Outcomes, comparisons and loops *)

Lemma dtype_eqb_eq (a b : np_dtype) : dtype_eqb a b = true <-> a = b.
Proof.
  split.
  - destruct a, b; simpl; intros E; try reflexivity; discriminate E.
  - intros ->. destruct b; reflexivity.
Qed.

Lemma dtype_eqb_refl (a : np_dtype) : dtype_eqb a a = true.
Proof. apply dtype_eqb_eq. reflexivity. Qed.

Lemma dtype_eqb_neq (a b : np_dtype) : dtype_eqb a b = false <-> a <> b.
Proof.
  split.
  - intros E ->. rewrite dtype_eqb_refl in E. discriminate E.
  - intros N. destruct (dtype_eqb a b) eqn:E; [|reflexivity].
    apply dtype_eqb_eq in E. contradiction.
Qed.

Lemma optZ_eqb_refl (a : option Z) : optZ_eqb a a = true.
Proof. destruct a as [z|]; simpl; [apply Z.eqb_refl | reflexivity]. Qed.

Lemma optZ_eqb_eq (a b : option Z) : optZ_eqb a b = true <-> a = b.
Proof.
  destruct a as [x|], b as [y|]; simpl; split; intros E;
    try discriminate E; try reflexivity.
  - apply Z.eqb_eq in E. now subst.
  - injection E as ->. apply Z.eqb_refl.
Qed.

Lemma shape_eqb_refl (s : nat * nat) : shape_eqb s s = true.
Proof. unfold shape_eqb. now rewrite !Nat.eqb_refl. Qed.

Lemma bind_Return_inv {A B : Type} (c : outcome A) (k : A -> outcome B) (b : B) :
  bind c k = Return b -> exists a, c = Return a /\ k a = Return b.
Proof.
  destruct c as [a| |]; simpl; intros E; try discriminate E.
  exists a. split; [reflexivity | exact E].
Qed.

Lemma bind_Return_r {A : Type} (c : outcome A) : bind c Return = c.
Proof. destruct c; reflexivity. Qed.

Lemma mapM_length {A B : Type} (f : A -> outcome B) (l : list A) (res : list B) :
  mapM f l = Return res -> length res = length l.
Proof.
  revert res. induction l as [|x xs IH]; simpl; intros res E.
  - injection E as <-. reflexivity.
  - apply bind_Return_inv in E as (y & _ & E).
    apply bind_Return_inv in E as (ys & Eys & E).
    injection E as <-. simpl. f_equal. apply IH, Eys.
Qed.

Lemma mapM_nth_error {A B : Type} (f : A -> outcome B) (l : list A)
    (res : list B) (i : nat) (x : A) :
  mapM f l = Return res -> nth_error l i = Some x ->
  exists y, nth_error res i = Some y /\ f x = Return y.
Proof.
  revert res i. induction l as [|a xs IH]; simpl; intros res i E Hi.
  - destruct i; discriminate Hi.
  - apply bind_Return_inv in E as (y & Ey & E).
    apply bind_Return_inv in E as (ys & Eys & E).
    injection E as <-. destruct i as [|i]; simpl in *.
    + injection Hi as ->. exists y. auto.
    + eapply IH; eauto.
Qed.

Lemma mapM_Forall2 {A B : Type} (f : A -> outcome B) (l : list A) (res : list B) :
  mapM f l = Return res -> Forall2 (fun x y => f x = Return y) l res.
Proof.
  revert res. induction l as [|a xs IH]; simpl; intros res E.
  - injection E as <-. constructor.
  - apply bind_Return_inv in E as (y & Ey & E).
    apply bind_Return_inv in E as (ys & Eys & E).
    injection E as <-. constructor; auto.
Qed.

Lemma mapM_total {A B : Type} (f : A -> outcome B) (g : A -> B) (l : list A) :
  Forall (fun x => f x = Return (g x)) l -> mapM f l = Return (map g l).
Proof.
  induction 1 as [|x xs Hx _ IH]; simpl; [reflexivity|].
  now rewrite Hx, IH.
Qed.

Lemma nth_error_zip {A B : Type} (l : list A) (l' : list B) (i : nat)
    (x : A) (y : B) :
  nth_error l i = Some x -> nth_error l' i = Some y ->
  nth_error (combine l l') i = Some (x, y).
Proof.
  revert l' i. induction l as [|a l IH]; intros l' i Hx Hy.
  - destruct i; discriminate Hx.
  - destruct l' as [|b l']; [destruct i; discriminate Hy|].
    destruct i as [|i]; simpl in *.
    + injection Hx as ->. injection Hy as ->. reflexivity.
    + apply IH; assumption.
Qed.

(** ** Images *)

Section ImageProperties.
Context {V : Type} `{ArrayLib V} {Transform : Type}.
#[local] Abbreviation image := (image V Transform).

Lemma is_float_cases (d : np_dtype) :
  is_float d = negb (negb (dtype_eqb d float32) && negb (dtype_eqb d float64)).
Proof. destruct d; reflexivity. Qed.

Lemma common_dtype_float (d : ndarray V) :
  is_float (arr_dtype d) = true -> common_dtype d = Return d.
Proof.
  unfold common_dtype. rewrite is_float_cases.
  destruct (negb _ && negb _); [discriminate | reflexivity].
Qed.

Lemma common_dtype_other (d : ndarray V) :
  is_float (arr_dtype d) = false -> common_dtype d = img_as_uint d.
Proof.
  unfold common_dtype. rewrite is_float_cases.
  destruct (negb _ && negb _); [reflexivity | discriminate].
Qed.

Lemma common_dtype_uint16 (d : ndarray V) :
  arr_dtype d = uint16 -> common_dtype d = Return d.
Proof.
  intros E. rewrite common_dtype_other by (rewrite E; reflexivity).
  apply img_as_uint_uint16, E.
Qed.

Lemma common_dtype_fixed (d : ndarray V) :
  image_dtype (arr_dtype d) -> common_dtype d = Return d.
Proof.
  intros [E | [E | E]].
  - apply common_dtype_uint16, E.
  - apply common_dtype_float. rewrite E. reflexivity.
  - apply common_dtype_float. rewrite E. reflexivity.
Qed.

Lemma common_dtype_image_dtype (d d' : ndarray V) :
  common_dtype d = Return d' -> image_dtype (arr_dtype d').
Proof.
  destruct (is_float (arr_dtype d)) eqn:F.
  - rewrite common_dtype_float by exact F. intros E. injection E as <-.
    destruct (arr_dtype d); try discriminate F; unfold image_dtype; auto.
  - rewrite common_dtype_other by exact F. intros E.
    left. eapply img_as_uint_dtype, E.
Qed.

Lemma from_other_data_eq (img : image) (d : ndarray V) :
  from_other_data img d = (d' <- common_dtype d ;; Return (with_data img d')).
Proof. destruct img; reflexivity. Qed.

Lemma with_data_data (img : image) (d : ndarray V) : data (with_data img d) = d.
Proof. destruct img; reflexivity. Qed.

Lemma with_data_again (img : image) (d d' : ndarray V) :
  with_data (with_data img d) d' = with_data img d'.
Proof. destruct img; reflexivity. Qed.

Lemma constructed_data (d : ndarray V) (o : outcome image) (img : image) :
  constructed d o -> o = Return img -> common_dtype d = Return (data img).
Proof.
  intros C E. destruct C; subst;
    unfold Image_init, CellImage_init, ModuleImage_init,
      PartialModuleImage_init in E;
    apply bind_Return_inv in E as (d' & Ed & E); injection E as <-;
    exact Ed.
Qed.

(** C9 (as amended): whichever class's constructor builds an image, data
    whose type is float32 or float64 is stored unchanged, any other data is
    stored as [img_as_uint] returns it, a 16-bit unsigned array; so the
    image's dtype is uint16, float32 or float64.  Nothing is said about the
    conversion being lossless. *)
Theorem constructor_common_dtype (d : ndarray V) (o : outcome image)
    (img : image) :
  constructed d o -> o = Return img ->
  (is_float (arr_dtype d) = true -> data img = d) /\
  (is_float (arr_dtype d) = false ->
     img_as_uint d = Return (data img) /\ dtype img = uint16) /\
  image_dtype (dtype img).
Proof.
  intros C E. pose proof (constructed_data C E) as Hd.
  split; [|split].
  - intros F. rewrite common_dtype_float in Hd by exact F.
    now injection Hd.
  - intros F. rewrite common_dtype_other in Hd by exact F.
    split; [exact Hd | eapply img_as_uint_dtype, Hd].
  - eapply common_dtype_image_dtype, Hd.
Qed.

(** Construction succeeds exactly when the conversion does. *)
Lemma Image_init_returns (d d' : ndarray V) (p : string) (m : option Z) :
  common_dtype d = Return d' ->
  Image_init d p m = Return (MkImage d' p m : image).
Proof. unfold Image_init. now intros ->. Qed.

Lemma ModuleImage_init_returns (d : ndarray V) (m : option Z) (p : string)
    (c r : option Z) (t : option Transform) :
  image_dtype (arr_dtype d) ->
  ModuleImage_init d m p c r t = Return (MkModuleImage d m p c r t).
Proof.
  intros Hd. unfold ModuleImage_init. now rewrite common_dtype_fixed.
Qed.

(** C7: converting an image to uint16 twice is converting it once; the
    second conversion returns the image it is given, data unchanged.  The
    first conversion may be refused by scikit-image (a float image outside
    [-1, 1]); then nothing is converted at all. *)
Theorem as_type_uint16_idempotent (img : image) :
  (x <- as_type img uint16 ;; as_type x uint16) = as_type img uint16 /\
  (forall img', as_type img uint16 = Return img' ->
     as_type img' uint16 = Return img' /\ dtype img' = uint16).
Proof.
  assert (Hsecond : forall img', as_type img uint16 = Return img' ->
            as_type img' uint16 = Return img' /\ dtype img' = uint16).
  { intros img' E. unfold as_type in E. simpl in E.
    apply bind_Return_inv in E as (d & Ed & E).
    pose proof (img_as_uint_dtype _ Ed) as Hd.
    rewrite from_other_data_eq, (common_dtype_uint16 _ Hd) in E.
    simpl in E. injection E as <-.
    unfold as_type, dtype. simpl. rewrite with_data_data.
    rewrite (img_as_uint_uint16 _ Hd). simpl.
    rewrite from_other_data_eq, (common_dtype_uint16 _ Hd). simpl.
    now rewrite with_data_again. }
  split; [|exact Hsecond].
  destruct (as_type img uint16) as [img'| |] eqn:E; simpl; try reflexivity.
  apply (Hsecond img' eq_refl).
Qed.

(** An image that already is uint16 is returned as it is. *)
Lemma as_type_uint16_fixed (img : image) :
  dtype img = uint16 -> as_type img uint16 = Return img.
Proof.
  intros Hd. unfold as_type. simpl.
  rewrite (img_as_uint_uint16 _ Hd). simpl.
  rewrite from_other_data_eq, (common_dtype_uint16 _ Hd). simpl.
  destruct img; reflexivity.
Qed.

(** C4 (as amended): on two images of different dtypes each of [+ - * // %
    **] raises the RuntimeError [Images must have the same datatype]; [/]
    raises the RuntimeError [Images must be of type float] when an operand
    is not a float image, and otherwise divides.  The error is an exception
    that reaches the caller: nothing is logged and the process goes on. *)
Theorem Image_arith_dtype_mismatch (op : binop) (self other : image) :
  dtype self <> dtype other ->
  match op with
  | TrueDiv =>
      if is_float (dtype self) && is_float (dtype other)
      then Image_arith op self other =
             (d <- np_arith op (data self) (data other) ;; from_other_data self d)
      else Image_arith op self other =
             Raise (RuntimeError "Images must be of type float")
  | _ => Image_arith op self other =
           Raise (RuntimeError "Images must have the same datatype")
  end.
Proof.
  intros N. apply dtype_eqb_neq in N.
  destruct op; simpl; rewrite ?N; simpl; try reflexivity.
  destruct (is_float (dtype self)), (is_float (dtype other)); reflexivity.
Qed.

End ImageProperties.

(** ** Sequences *)

Section SequenceProperties.
Context {V : Type} `{ArrayLib V} {Transform : Type}.
#[local] Abbreviation image := (image V Transform).
#[local] Abbreviation sequence := (sequence V Transform).

(** With [same_camera] off and one modality throughout, only the dtype check
    of the constructor's loop can fail, and only when it is not waived. *)
Lemma check_images_no_camera (s0 : nat * nat) (d0 : np_dtype) (m0 : option Z)
    (allow : bool) (images : list image) :
  Forall (fun img => modality img = m0) images ->
  check_images s0 d0 m0 false allow images =
    if allow || forallb (fun img => dtype_eqb (dtype img) d0) images
    then Return tt else Exit MixedDtypes.
Proof.
  induction 1 as [|img rest Hm _ IH]; simpl.
  - now rewrite orb_true_r.
  - rewrite andb_false_r, Hm, optZ_eqb_refl. simpl.
    destruct allow; simpl in *.
    + rewrite andb_false_r. exact IH.
    + destruct (dtype_eqb (dtype img) d0); simpl; [exact IH | reflexivity].
Qed.

Lemma ImageSequence_init_inv (cls : seq_class) (images : list image)
    (sc adt : bool) (s : sequence) :
  ImageSequence_init cls images sc adt = Return s ->
  s = mk_sequence cls images sc adt.
Proof.
  unfold ImageSequence_init. destruct images as [|first rest]; [discriminate|].
  intros E. apply bind_Return_inv in E as (u & _ & E). now injection E.
Qed.

Lemma ModuleImageSequence_init_inv (images : list image) (sc adt : bool)
    (s : sequence) :
  ModuleImageSequence_init images sc adt = Return s ->
  s = mk_sequence ModuleImageSequence images sc adt.
Proof.
  unfold ModuleImageSequence_init.
  destruct images as [|first rest]; [discriminate|]. intros E.
  apply bind_Return_inv in E as (c & _ & E).
  apply bind_Return_inv in E as (r & _ & E).
  apply bind_Return_inv in E as (u & _ & E).
  apply ImageSequence_init_inv in E. exact E.
Qed.

(** C5, the failing path: [ModuleImageSequence] applied to the empty list
    reads [images[0]] first and raises IndexError, whatever the flags, also
    when the flags are given by keyword; the fatal exit of the base
    constructor is never reached. *)
Theorem empty_ModuleImageSequence_raises (same_camera allow : bool) :
  ModuleImageSequence_init ([] : list image) same_camera allow
    = Raise IndexError /\
  new_sequence ModuleImageSequence [VImages ([] : list image)]
    [("same_camera"%string, VBool same_camera);
     ("allow_different_dtypes"%string, VBool allow)] = Raise IndexError.
Proof. split; reflexivity. Qed.

(** The base class and [CellImageSequence] do exit on the empty list. *)
Lemma empty_ImageSequence_exits (cls : seq_class) (same_camera allow : bool) :
  ImageSequence_init cls ([] : list image) same_camera allow
    = Exit EmptySequence /\
  CellImageSequence_init ([] : list image) allow = Exit EmptySequence.
Proof. split; reflexivity. Qed.

(** C10: [CellImageSequence(images)] passes its [copy] flag, True by
    default, where the base constructor expects [allow_different_dtypes].
    Images of one modality are therefore accepted whatever their dtypes, the
    sequence's [dtype] is None even when the dtypes agree, and [copy=False]
    brings the dtype check back. *)
Theorem CellImageSequence_copy_waives_dtypes (first : image)
    (rest : list image) :
  Forall (fun img => modality img = modality first) rest ->
  new_sequence CellImageSequence [VImages (first :: rest)] []
    = CellImageSequence_init (first :: rest) true /\
  CellImageSequence_init (first :: rest) true
    = Return (mk_sequence CellImageSequence (first :: rest) false true) /\
  ImageSequence_dtype (mk_sequence CellImageSequence (first :: rest) false true)
    = Return None /\
  CellImageSequence_init (first :: rest) false
    = if forallb (fun img => dtype_eqb (dtype img) (dtype first)) rest
      then Return (mk_sequence CellImageSequence (first :: rest) false false)
      else Exit MixedDtypes.
Proof.
  intros Hm.
  assert (Hall : Forall (fun img : image => modality img = modality first)
                   (first :: rest)) by (constructor; auto).
  repeat split.
  - unfold CellImageSequence_init, ImageSequence_init.
    rewrite (check_images_no_camera _ _ _ Hall). reflexivity.
  - unfold CellImageSequence_init, ImageSequence_init.
    rewrite (check_images_no_camera _ _ _ Hall). simpl.
    rewrite dtype_eqb_refl. simpl.
    destruct (forallb _ rest); reflexivity.
Qed.

(** What [type(self).from_other(self, images = res)] comes to: the
    constructor of the sequence's class on [res] and the stored flags.  For
    a [CellImageSequence] the parameter [copy] has no attribute [_copy]
    behind it. *)
Lemma from_other_images (self : sequence) (res : list image) :
  from_other (class_of self) self [("images"%string, VImages res)] =
    match class_of self with
    | ImageSequence =>
        ImageSequence_init ImageSequence res (_same_camera self)
          (_allow_different_dtypes self)
    | ModuleImageSequence =>
        ModuleImageSequence_init res (_same_camera self)
          (_allow_different_dtypes self)
    | CellImageSequence => Raise AttributeError
    end.
Proof. destruct self as [[ | | ] imgs sc adt]; reflexivity. Qed.

(** C3 (as amended): a sequence operator combines the images position by
    position over the common prefix of the two sequences ([zip]); the
    lengths are not compared.  When every pair combines, the result list
    [res] has the length of the shorter sequence, its image [i] is image [i]
    of the one combined with image [i] of the other, and the operator is the
    constructor of the left operand's class applied to [res] with the left
    operand's flags; a sequence it returns has that class, those images and
    those flags.  ([CellImageSequence] is left out.) *)
Theorem ImageSequence_arith_pairwise (op : binop) (self other : sequence)
    (res : list image) :
  class_of self <> CellImageSequence ->
  mapM (fun xy => Image_arith op (fst xy) (snd xy))
       (combine (_images self) (_images other)) = Return res ->
  length res = Nat.min (length (_images self)) (length (_images other)) /\
  (forall i x y,
     nth_error (_images self) i = Some x ->
     nth_error (_images other) i = Some y ->
     exists z, nth_error res i = Some z /\ Image_arith op x y = Return z) /\
  ImageSequence_arith op self other =
    (if match class_of self with ModuleImageSequence => true | _ => false end
     then ModuleImageSequence_init res (_same_camera self)
            (_allow_different_dtypes self)
     else ImageSequence_init ImageSequence res (_same_camera self)
            (_allow_different_dtypes self)) /\
  (forall s, ImageSequence_arith op self other = Return s ->
     s = mk_sequence (class_of self) res (_same_camera self)
           (_allow_different_dtypes self)).
Proof.
  intros Hcls Hres.
  assert (Heq : ImageSequence_arith op self other =
    (if match class_of self with ModuleImageSequence => true | _ => false end
     then ModuleImageSequence_init res (_same_camera self)
            (_allow_different_dtypes self)
     else ImageSequence_init ImageSequence res (_same_camera self)
            (_allow_different_dtypes self))).
  { unfold ImageSequence_arith. rewrite Hres. simpl bind.
    rewrite from_other_images.
    destruct (class_of self); [reflexivity | contradiction | reflexivity]. }
  split; [|split; [|split]].
  - rewrite (mapM_length _ _ Hres). apply length_combine.
  - intros i x y Hx Hy.
    assert (Hc : nth_error (combine (_images self) (_images other)) i
                 = Some (x, y)).
    { apply nth_error_zip; assumption. }
    destruct (@mapM_nth_error _ _ _ _ _ _ _ Hres Hc) as (z & Hz & Ez).
    exists z. auto.
  - exact Heq.
  - intros s Es. rewrite Heq in Es.
    destruct (class_of self) eqn:C.
    + apply ImageSequence_init_inv in Es. exact Es.
    + contradiction.
    + apply ModuleImageSequence_init_inv in Es. exact Es.
Qed.

(** On a [CellImageSequence] the operators get as far as [from_other], which
    asks for the attribute [_copy]. *)
Lemma CellImageSequence_arith_raises (op : binop) (self other : sequence)
    (res : list image) :
  class_of self = CellImageSequence ->
  mapM (fun xy => Image_arith op (fst xy) (snd xy))
       (combine (_images self) (_images other)) = Return res ->
  ImageSequence_arith op self other = Raise AttributeError.
Proof.
  intros Hcls Hres. unfold ImageSequence_arith. rewrite Hres. cbn [bind].
  rewrite from_other_images, Hcls. reflexivity.
Qed.

End SequenceProperties.

(** ** The grid of a module image *)

Lemma arange_In (n x : Z) : In x (arange n) <-> (0 <= x < n)%Z.
Proof.
  unfold arange. rewrite in_map_iff. split.
  - intros (k & <- & Hk). apply in_seq in Hk. lia.
  - intros Hx. exists (Z.to_nat x). split; [lia|]. apply in_seq. lia.
Qed.

Lemma arange_length (n : Z) : length (arange n) = Z.to_nat n.
Proof. unfold arange. now rewrite length_map, length_seq. Qed.

Lemma NoDup_map_injective {A B : Type} (f : A -> B) (l : list A) :
  (forall x y, f x = f y -> x = y) -> NoDup l -> NoDup (map f l).
Proof.
  intros Hf. induction 1 as [|x l Hx _ IH]; simpl; constructor; auto.
  rewrite in_map_iff. intros (y & E & Hy). apply Hf in E. now subst.
Qed.

Lemma arange_NoDup (n : Z) : NoDup (arange n).
Proof.
  unfold arange. apply NoDup_map_injective; [|apply seq_NoDup].
  intros x y E. lia.
Qed.

Lemma NoDup_list_prod {A B : Type} (l : list A) (l' : list B) :
  NoDup l -> NoDup l' -> NoDup (list_prod l l').
Proof.
  intros Hl Hl'. induction Hl as [|x l Hx _ IH]; simpl; [constructor|].
  apply NoDup_app.
  - apply NoDup_map_injective; [|exact Hl']. now intros y z [= ->].
  - exact IH.
  - intros [a b] Ha Hb. apply in_map_iff in Ha as (y & [= <- <-] & _).
    apply in_prod_iff in Hb as [Hb _]. contradiction.
Qed.

Lemma combine_app_aligned {A B : Type} (l1 l2 : list A) (l1' l2' : list B) :
  length l1 = length l1' ->
  combine (l1 ++ l2) (l1' ++ l2') = combine l1 l1' ++ combine l2 l2'.
Proof.
  revert l1'. induction l1 as [|a l1 IH]; intros [|b l1'] E;
    try discriminate E; simpl; [reflexivity|].
  f_equal. apply IH. now injection E.
Qed.

Lemma combine_constant {A B : Type} (a : A) (l : list B) :
  combine (map (fun _ => a) l) l = map (pair a) l.
Proof. induction l as [|b l IH]; simpl; [reflexivity | now rewrite IH]. Qed.

Section GridProperties.
Context {V : Type} {Transform : Type}.
#[local] Abbreviation image := (image V Transform).

(** The two flattened coordinate arrays, stacked, are the pairs (x, y) with
    x running over the columns and, for each x, y over the rows. *)
Lemma mgrid_stack (c r : Z) :
  combine (mgrid_x_flat c r) (mgrid_y_flat c r)
    = list_prod (arange (c + 1)) (arange (r + 1)).
Proof.
  unfold mgrid_x_flat, mgrid_y_flat.
  induction (arange (c + 1)) as [|x xs IH]; simpl; [reflexivity|].
  rewrite combine_app_aligned by apply length_map.
  now rewrite combine_constant, IH.
Qed.

(** What [grid()] evaluates to on a module image. *)
Lemma grid_of_geometry (img : image) (c r : option Z) :
  cols img = Return c -> rows img = Return r ->
  grid img =
    match c, r with
    | Some c, Some r =>
        if (c + 1 <? 0)%Z || (r + 1 <? 0)%Z then Raise ValueError
        else Return (list_prod (arange (c + 1)) (arange (r + 1)))
    | _, _ => Exit GeometryNotInitialized
    end.
Proof.
  intros Hc Hr.
  destruct img; simpl in *; try discriminate Hc;
    injection Hc as <-; injection Hr as <-;
    destruct _cols as [c|], _rows as [r|]; try reflexivity;
    now rewrite mgrid_stack.
Qed.

(** C8 (as amended): on a module image with [cols] and [rows] set and both
    at least -1, [grid()] returns an (N,2) array whose rows are the pairs
    (x, y) with 0 <= x <= cols and 0 <= y <= rows, each once,
    N = (cols+1) * (rows+1) of them; when [cols] or [rows] is below -1 it
    raises the ValueError of numpy; when [cols] or [rows] is None it logs an
    error and exits. *)
Theorem grid_is_lattice (img : image) (c r : option Z) :
  cols img = Return c -> rows img = Return r ->
  match c, r with
  | Some c, Some r =>
      if (c <? -1)%Z || (r <? -1)%Z then grid img = Raise ValueError
      else
        exists g, grid img = Return g /\
          Z.of_nat (length g) = ((c + 1) * (r + 1))%Z /\
          NoDup g /\
          (forall x y, In (x, y) g <-> (0 <= x <= c)%Z /\ (0 <= y <= r)%Z)
  | _, _ => grid img = Exit GeometryNotInitialized
  end.
Proof.
  intros Hc Hr. pose proof (grid_of_geometry img Hc Hr) as Hg.
  destruct c as [c|], r as [r|]; try exact Hg.
  assert (Hb : ((c + 1 <? 0)%Z || (r + 1 <? 0)%Z)
               = ((c <? -1)%Z || (r <? -1)%Z)).
  { destruct (c <? -1)%Z eqn:E1, (r <? -1)%Z eqn:E2,
      (c + 1 <? 0)%Z eqn:E3, (r + 1 <? 0)%Z eqn:E4; try reflexivity;
      rewrite ?Z.ltb_lt, ?Z.ltb_ge in *; lia. }
  rewrite Hb in Hg.
  destruct ((c <? -1)%Z || (r <? -1)%Z) eqn:E; [exact Hg|].
  apply orb_false_iff in E as [E1 E2]. apply Z.ltb_ge in E1, E2.
  exists (list_prod (arange (c + 1)) (arange (r + 1))).
  split; [exact Hg|]. split; [|split].
  - rewrite length_prod, !arange_length, Nat2Z.inj_mul, !Z2Nat.id by lia.
    reflexivity.
  - apply NoDup_list_prod; apply arange_NoDup.
  - intros x y. rewrite in_prod_iff, !arange_In. lia.
Qed.

End GridProperties.

(** ** The sequence adapter *)

Section AdapterProperties.
Context {V : Type} `{ArrayLib V} {Transform : Type}.
#[local] Abbreviation image := (image V Transform).
#[local] Abbreviation sequence := (sequence V Transform).
#[local] Abbreviation pyvalue := (pyvalue V Transform).
#[local] Abbreviation function := (function V Transform).

Lemma wrap_first_image (img : image) :
  wrap_first (PyImage img) = Return (PySequence (singleton img), true).
Proof.
  unfold wrap_first, singleton.
  destruct img; cbn;
    repeat (rewrite ?optZ_eqb_refl, ?dtype_eqb_refl, ?shape_eqb_refl; cbn);
    reflexivity.
Qed.

(** A sequence argument is passed through and the result left alone. *)
Lemma wrapper_sequence_on_sequence (disable_unwrap : bool) (func : function)
    (s : sequence) (rest : list pyvalue) :
  wrapper_sequence disable_unwrap func (PySequence s :: rest)
    = func (PySequence s :: rest).
Proof.
  unfold wrapper_sequence. simpl.
  destruct (func _); reflexivity.
Qed.

(** X12: a single image is wrapped, and of a sequence result the first
    image is handed back, whatever the length of the result. *)
Lemma wrapper_sequence_unwraps (func : function) (img first : image)
    (rest : list pyvalue) (s : sequence) (others : list image) :
  func (PySequence (singleton img) :: rest) = Return (PySequence s) ->
  _images s = first :: others ->
  wrapper_sequence false func (PyImage img :: rest) = Return (PyImage first).
Proof.
  intros Hf Hs. unfold wrapper_sequence.
  rewrite wrap_first_image. simpl. rewrite Hf. simpl. now rewrite Hs.
Qed.

(** X13: with unwrapping disabled a single image is wrapped in its
    one-element sequence and the result of the function is returned as it
    is. *)
Lemma wrapper_sequence_disabled (func : function) (img : image)
    (rest : list pyvalue) :
  wrapper_sequence true func (PyImage img :: rest)
    = func (PySequence (singleton img) :: rest).
Proof.
  unfold wrapper_sequence. rewrite wrap_first_image. simpl.
  destruct (func _); reflexivity.
Qed.

(** A tuple result headed by a sequence: the assignment to [res[0]] is
    refused. *)
Lemma wrapper_sequence_tuple (func : function) (img first : image)
    (rest items : list pyvalue) (s : sequence) (others : list image) :
  func (PySequence (singleton img) :: rest)
    = Return (PyTuple (PySequence s :: items)) ->
  _images s = first :: others ->
  wrapper_sequence false func (PyImage img :: rest) = Raise TypeError.
Proof.
  intros Hf Hs. unfold wrapper_sequence.
  rewrite wrap_first_image. simpl. rewrite Hf. simpl. now rewrite Hs.
Qed.

(** C6, the failing path: a decorated function that returns the tuple
    (sequence it was given, something else) is called with a single image
    and unwrapping enabled; the caller gets a TypeError instead of the tuple
    with the image in first place. *)
Theorem tuple_result_raises_TypeError (img : image) (second : pyvalue) :
  wrapper_sequence false
    (fun args => Return (PyTuple [hd (PyOther 0) args; second]))
    [PyImage img] = Raise TypeError.
Proof.
  eapply wrapper_sequence_tuple with (first := img) (s := singleton img)
    (others := []); reflexivity.
Qed.

(** [@_sequence] enables unwrapping, [@_sequence(flag)] sets it. *)
Lemma _sequence_bare (func : function) :
  _sequence [ArgFunction func] = Wrapper (wrapper_sequence false func).
Proof. reflexivity. Qed.

Lemma _sequence_flag (disable_unwrap : bool) :
  _sequence (V := V) (Transform := Transform) [ArgFlag disable_unwrap]
    = Decorator (wrapper_sequence disable_unwrap).
Proof. reflexivity. Qed.

End AdapterProperties.

(** ** Arrays: bounding shape, fill and paste *)

Lemma fold_bound_start (ss : list (nat * nat)) (s : nat * nat) :
  fst s <= fst (fold_left bound ss s) /\ snd s <= snd (fold_left bound ss s).
Proof.
  revert s. induction ss as [|u ss IH]; simpl; intros s; [lia|].
  destruct (IH (bound s u)). unfold bound in *. simpl in *. lia.
Qed.

Lemma fold_bound_ge (ss : list (nat * nat)) (s t : nat * nat) :
  t = s \/ In t ss ->
  fst t <= fst (fold_left bound ss s) /\ snd t <= snd (fold_left bound ss s).
Proof.
  revert s. induction ss as [|u ss IH]; simpl; intros s [E | Hin].
  - subst. lia.
  - contradiction.
  - subst t. apply (fold_bound_start (u :: ss) s).
  - destruct Hin as [<- | Hin].
    + destruct (fold_bound_start ss (bound s u)).
      unfold bound in *. simpl in *. lia.
    + apply IH. now right.
Qed.

Lemma fold_bound_attained (ss : list (nat * nat)) (s : nat * nat) :
  (exists t, (t = s \/ In t ss) /\ fst t = fst (fold_left bound ss s)) /\
  (exists t, (t = s \/ In t ss) /\ snd t = snd (fold_left bound ss s)).
Proof.
  revert s. induction ss as [|u ss IH]; simpl; intros s.
  - split; exists s; auto.
  - destruct (IH (bound s u)) as [(t1 & H1 & E1) (t2 & H2 & E2)]. split.
    + destruct H1 as [-> | H1]; [|exists t1; auto].
      unfold bound in E1 at 1. simpl in E1.
      destruct (Nat.max_spec (fst s) (fst u)) as [[_ M] | [_ M]];
        rewrite M in E1; [exists u | exists s]; auto.
    + destruct H2 as [-> | H2]; [|exists t2; auto].
      unfold bound in E2 at 1. simpl in E2.
      destruct (Nat.max_spec (snd s) (snd u)) as [[_ M] | [_ M]];
        rewrite M in E2; [exists u | exists s]; auto.
Qed.

Lemma nth_error_enumerate {A : Type} (l : list A) (k : nat) :
  nth_error (combine (seq 0 (length l)) l) k = option_map (pair k) (nth_error l k).
Proof.
  destruct (nth_error l k) as [a|] eqn:E; simpl.
  - apply nth_error_zip; [|exact E].
    rewrite nth_error_seq.
    assert (Hk : k < length l) by (apply nth_error_Some; congruence).
    apply Nat.ltb_lt in Hk. now rewrite Hk.
  - apply nth_error_None. rewrite length_combine, length_seq.
    apply nth_error_None in E. lia.
Qed.

Lemma flat_index (C i j : nat) :
  j < C -> (i * C + j) / C = i /\ (i * C + j) mod C = j.
Proof.
  intros Hj. split; symmetry.
  - apply Nat.div_unique with (r := j); lia.
  - apply Nat.mod_unique with (q := i); lia.
Qed.

Section ArrayProperties.
Context {V : Type} `{ArrayLib V}.

Lemma np_min_returns (a : ndarray V) :
  arr_flat a <> [] -> exists m, np_min a = Return m.
Proof.
  unfold np_min. destruct (arr_flat a) as [|x xs]; [contradiction|].
  intros _. eexists. reflexivity.
Qed.

Lemma astype_well_formed (a : ndarray V) (dt : np_dtype) :
  well_formed a -> well_formed (astype a dt).
Proof. unfold well_formed, astype. simpl. now rewrite length_map. Qed.

(** [np.full] followed by the paste at the origin: the canvas has the target
    shape and the type of the fill; inside the block of the data it holds
    the data, elsewhere the fill value. *)
Lemma paste_on_full (target : nat * nat) (m : V) (a : ndarray V) :
  well_formed a ->
  fst (arr_shape a) <= fst target -> snd (arr_shape a) <= snd target ->
  exists canvas,
    assign_top_left (np_full target m (arr_dtype a)) a = Return canvas /\
    arr_shape canvas = target /\
    arr_dtype canvas = arr_dtype a /\
    well_formed canvas /\
    (arr_flat a <> [] -> arr_flat canvas <> []) /\
    forall i j, i < fst target -> j < snd target ->
      item canvas i j =
        if (i <? fst (arr_shape a)) && (j <? snd (arr_shape a))
        then item a i j else Some m.
Proof.
  intros Hwf Hr Hc. destruct target as [R C]. simpl in Hr, Hc.
  unfold assign_top_left. cbn [np_full arr_shape arr_dtype arr_flat fst snd].
  apply Nat.leb_le in Hr as Hr', Hc as Hc'. rewrite Hr', Hc'. simpl andb.
  eexists. split; [reflexivity|].
  cbn [arr_shape arr_dtype arr_flat fst snd].
  split; [reflexivity|]. split; [reflexivity|]. split; [|split].
  - unfold well_formed. cbn [arr_shape arr_flat fst snd].
    now rewrite length_map, length_combine, length_seq, repeat_length,
      Nat.min_id.
  - intros Hne. unfold well_formed in Hwf.
    destruct (arr_flat a) as [|x xs] eqn:Ea; [contradiction|].
    simpl in Hwf.
    assert (0 < R * C) by nia.
    destruct (R * C) as [|n] eqn:En; [lia|]. simpl. discriminate.
  - intros i j Hi Hj. unfold item at 1.
    cbn [arr_shape arr_flat snd].
    apply Nat.ltb_lt in Hj as Hj'. rewrite Hj'.
    rewrite nth_error_map, nth_error_enumerate.
    rewrite nth_error_repeat by nia. simpl option_map.
    unfold pasted_cell. cbn [arr_shape arr_dtype arr_flat fst snd].
    change (arr_shape (np_full (R, C) m (arr_dtype a))) with (R, C).
    change (arr_dtype (np_full (R, C) m (arr_dtype a))) with (arr_dtype a).
    cbn [snd].
    destruct (flat_index i Hj) as [-> ->].
    unfold item.
    destruct (i <? fst (arr_shape a)) eqn:Ei; simpl andb; [|reflexivity].
    destruct (j <? snd (arr_shape a)) eqn:Ej; [|reflexivity].
    apply Nat.ltb_lt in Ei, Ej.
    destruct (nth_error (arr_flat a) (i * snd (arr_shape a) + j)) as [v|] eqn:E.
    + now rewrite dtype_eqb_refl.
    + apply nth_error_None in E. unfold well_formed in Hwf. nia.
Qed.

End ArrayProperties.

(** ** The bulk reader *)

Lemma mapM_exists {A B : Type} (f : A -> outcome B) (P : A -> B -> Prop)
    (l : list A) :
  Forall (fun x => exists y, f x = Return y /\ P x y) l ->
  exists res, mapM f l = Return res /\ Forall2 P l res.
Proof.
  induction 1 as [|x xs (y & Ey & Py) _ (ys & Eys & Pys)]; simpl.
  - exists []. split; [reflexivity | constructor].
  - exists (y :: ys). rewrite Ey, Eys. split; [reflexivity|].
    constructor; assumption.
Qed.

Lemma Forall2_right {A B : Type} (P : A -> B -> Prop) (Q : B -> Prop)
    (l : list A) (l' : list B) :
  (forall x y, P x y -> Q y) -> Forall2 P l l' -> Forall Q l'.
Proof. intros HPQ. induction 1; constructor; eauto. Qed.

Section ReaderProperties.
Context {V : Type} `{ArrayLib V} {Transform : Type}.
#[local] Abbreviation image := (image V Transform).
#[local] Abbreviation sequence := (sequence V Transform).

(** What one turn of the rebuilding loop returns. *)
Lemma rebuild_spec (same_types same_shapes : bool) (target : nat * nat)
    (m0 c0 r0 : option Z) (img : image) :
  from_reader m0 c0 r0 img ->
  fst (shape img) <= fst target -> snd (shape img) <= snd target ->
  exists d2,
    rebuild same_types same_shapes target img
      = Return (MkModuleImage d2 m0 (path img) c0 r0 None) /\
    arr_dtype d2 = (if same_types then dtype img else float64) /\
    (same_types = true -> same_shapes = false ->
       padded target img (MkModuleImage d2 m0 (path img) c0 r0 None)).
Proof.
  intros (Hm & Hc & Hr & Hd & Hwf & Hne) Hfst Hsnd.
  set (d1 := if negb same_types then astype (data img) float64 else data img).
  assert (Hd1 : arr_dtype d1 = if same_types then dtype img else float64)
    by (subst d1; destruct same_types; reflexivity).
  assert (Hid1 : image_dtype (arr_dtype d1)).
  { rewrite Hd1. destruct same_types; [exact Hd | right; right; reflexivity]. }
  assert (Hwf1 : well_formed d1)
    by (subst d1; destruct same_types; simpl;
        [exact Hwf | apply astype_well_formed, Hwf]).
  assert (Hs1 : arr_shape d1 = shape img)
    by (subst d1; destruct same_types; reflexivity).
  assert (Hne1 : arr_flat d1 <> []).
  { subst d1. destruct same_types; simpl; [exact Hne|].
    destruct (arr_flat (data img)); [contradiction | discriminate]. }
  unfold rebuild. fold d1. rewrite Hc, Hr, Hm.
  destruct same_shapes; simpl negb; cbv iota.
  - exists d1. simpl bind.
    rewrite ModuleImage_init_returns by exact Hid1.
    split; [reflexivity|]. split; [exact Hd1|]. intros _ E. discriminate E.
  - destruct (np_min_returns d1 Hne1) as (m & Em).
    destruct (@paste_on_full _ _ target m d1 Hwf1) as
      (canvas & Ec & Hcs & Hcd & _ & _ & Hitem);
      [rewrite Hs1; exact Hfst | rewrite Hs1; exact Hsnd |].
    exists canvas. rewrite Em. simpl bind. rewrite Ec. simpl bind.
    rewrite ModuleImage_init_returns by (rewrite Hcd; exact Hid1).
    split; [reflexivity|]. split; [congruence|].
    intros -> _. subst d1. simpl in *.
    exists canvas, m, c0, r0. rewrite Hm.
    repeat split; auto.
Qed.

Lemma homogeneous_types_all (imgs : list image) (d : np_dtype) :
  Forall (fun img => dtype img = d) imgs -> homogeneous_types imgs = true.
Proof.
  intros Hall. destruct imgs as [|first rest]; [reflexivity|].
  unfold homogeneous_types. apply forallb_forall. intros img Hin.
  rewrite Forall_forall in Hall.
  rewrite (Hall img Hin), (Hall first (or_introl eq_refl)).
  apply dtype_eqb_refl.
Qed.

Lemma check_geometry_uniform (c0 r0 : option Z) (images : list image) :
  Forall (fun img => cols img = Return c0 /\ rows img = Return r0) images ->
  check_geometry c0 r0 images = Return tt.
Proof.
  induction 1 as [|img rest [Hc Hr] _ IH]; simpl; [reflexivity|].
  rewrite Hc, Hr. simpl. now rewrite !optZ_eqb_refl.
Qed.

(** Module images of one modality, geometry and dtype form a module
    sequence, with [same_camera] off, whatever [allow_different_dtypes]. *)
Lemma uniform_ModuleImageSequence (m0 c0 r0 : option Z) (d : np_dtype)
    (first : image) (rest : list image) (allow : bool) :
  Forall (fun img => modality img = m0 /\ cols img = Return c0 /\
                     rows img = Return r0 /\ dtype img = d) (first :: rest) ->
  ModuleImageSequence_init (first :: rest) false allow
    = Return (mk_sequence ModuleImageSequence (first :: rest) false allow).
Proof.
  intros Hall. unfold ModuleImageSequence_init.
  pose proof (Forall_inv Hall) as (Hm & Hc & Hr & Hd).
  assert (Hg : check_geometry c0 r0 (first :: rest) = Return tt).
  { apply check_geometry_uniform.
    eapply Forall_impl; [|exact Hall]. intros ? (_ & ? & ? & _). auto. }
  assert (Hi : check_images (shape first) (dtype first) (modality first)
                 false allow (first :: rest) = Return tt).
  { rewrite check_images_no_camera.
    - assert (Hf : forallb (fun img : image =>
                              dtype_eqb (dtype img) (dtype first))
                     (first :: rest) = true).
      { apply forallb_forall. intros img Hin. rewrite Forall_forall in Hall.
        destruct (Hall img Hin) as (_ & _ & _ & ->). rewrite Hd.
        apply dtype_eqb_refl. }
      now rewrite Hf, orb_true_r.
    - eapply Forall_impl; [|exact Hall]. intros ? (? & _). congruence. }
  rewrite Hc, Hr. cbn [bind]. rewrite Hg. cbn [bind].
  unfold ImageSequence_init. rewrite Hi. reflexivity.
Qed.

(** The shapes of a non-empty list of images have a bounding shape: it
    dominates every shape and is attained on each axis. *)
Lemma bounding_shape (first : image) (rest : list image) :
  exists target,
    np_max_axis0 (map shape (first :: rest)) = Return target /\
    (forall img, In img (first :: rest) ->
       fst (shape img) <= fst target /\ snd (shape img) <= snd target) /\
    (exists img, In img (first :: rest) /\ fst (shape img) = fst target) /\
    (exists img, In img (first :: rest) /\ snd (shape img) = snd target).
Proof.
  simpl. eexists. split; [reflexivity|].
  assert (Hin : forall t, t = shape first \/ In t (map shape rest) ->
            exists img : image, (first = img \/ In img rest) /\ shape img = t).
  { intros t [-> | Ht]; [exists first; auto|].
    apply in_map_iff in Ht as (img & <- & Hi). exists img. auto. }
  split; [|split].
  - intros img Hi. apply fold_bound_ge.
    destruct Hi as [<- | Hi]; [now left | right; now apply in_map].
  - destruct (fold_bound_attained (map shape rest) (shape first))
      as [(t & Ht & E) _].
    destruct (Hin t Ht) as (img & Hi & <-). exists img. auto.
  - destruct (fold_bound_attained (map shape rest) (shape first))
      as [_ (t & Ht & E)].
    destruct (Hin t Ht) as (img & Hi & <-). exists img. auto.
Qed.

End ReaderProperties.

Section Resolution.
Context {V : Type} `{ArrayLib V} {Transform : Type}.
#[local] Abbreviation image := (image V Transform).
#[local] Abbreviation sequence := (sequence V Transform).

Lemma rebuilt_sequence (m0 c0 r0 : option Z) (d : np_dtype)
    (imgs out : list image) (P : image -> image -> Prop) (allow : bool) :
  imgs <> [] ->
  Forall2 (fun img new => P img new /\ uniform m0 c0 r0 d new) imgs out ->
  ModuleImageSequence_init out false allow
    = Return (mk_sequence ModuleImageSequence out false allow) /\
  ImageSequence_shape (mk_sequence ModuleImageSequence out false allow)
    = Return None /\
  ImageSequence_dtype (mk_sequence ModuleImageSequence out false allow)
    = Return (if allow then None else Some d).
Proof.
  intros Hne HF.
  assert (Hu : Forall (uniform m0 c0 r0 d) out)
    by (eapply Forall2_right; [|exact HF]; intros ? ? [_ ?]; assumption).
  destruct HF as [|img new imgs' out' _ _]; [contradiction|].
  split; [|split].
  - eapply uniform_ModuleImageSequence. exact Hu.
  - reflexivity.
  - unfold ImageSequence_dtype. simpl.
    destruct allow; simpl; [reflexivity|].
    destruct (Forall_inv Hu) as (_ & _ & _ & ->). reflexivity.
Qed.

(** C1 (as amended): the resolution step of the bulk reader, on images of
    one dtype [d] whose shapes are not all equal.  The bounding shape is the
    maximum of the shapes on each axis; every image is rebuilt as a
    [ModuleImage] whose data is a canvas of the bounding shape and of dtype
    [d], filled with the minimum of that image's own data, with the data
    pasted at row 0, column 0.  A [ModuleImageSequence] constructed from the
    rebuilt images with [same_camera=False] has shape None, and its dtype is
    [d] when [allow_different_dtypes] is False and None when it is True.
    (The reader's own constructor call, which also passes [copy=False], is
    left out.) *)
Theorem resolve_pads_to_bounding_shape (imgs : list image) (d : np_dtype)
    (m0 c0 r0 : option Z) :
  Forall (from_reader m0 c0 r0) imgs ->
  Forall (fun img => dtype img = d) imgs ->
  homogeneous_shapes (map shape imgs) = false ->
  exists target out,
    np_max_axis0 (map shape imgs) = Return target /\
    (forall img, In img imgs ->
       fst (shape img) <= fst target /\ snd (shape img) <= snd target) /\
    (exists img, In img imgs /\ fst (shape img) = fst target) /\
    (exists img, In img imgs /\ snd (shape img) = snd target) /\
    resolve imgs = Return out /\
    Forall2 (padded target) imgs out /\
    forall allow,
      ModuleImageSequence_init out false allow
        = Return (mk_sequence ModuleImageSequence out false allow) /\
      ImageSequence_shape (mk_sequence ModuleImageSequence out false allow)
        = Return None /\
      ImageSequence_dtype (mk_sequence ModuleImageSequence out false allow)
        = Return (if allow then None else Some d).
Proof.
  intros Hread Hd Hshapes.
  destruct imgs as [|first rest]; [discriminate Hshapes|].
  destruct (bounding_shape first rest) as (target & Et & Hge & Hf & Hs).
  assert (Hall : Forall (fun img => exists new,
              rebuild true false target img = Return new /\
              (padded target img new /\ uniform m0 c0 r0 d new))
            (first :: rest)).
  { apply Forall_forall. intros img Hin.
    rewrite Forall_forall in Hread, Hd.
    destruct (Hge img Hin) as [Hr Hc].
    destruct (@rebuild_spec _ _ _ true false target m0 c0 r0 img
                (Hread img Hin) Hr Hc)
      as (d2 & E & Hd2 & Hp).
    eexists. split; [exact E|]. split; [apply Hp; reflexivity|].
    unfold uniform, dtype. simpl. rewrite Hd2, (Hd img Hin). auto. }
  apply mapM_exists in Hall as (out & Eout & HF).
  exists target, out.
  split; [exact Et|]. split; [exact Hge|]. split; [exact Hf|].
  split; [exact Hs|]. split; [|split].
  - unfold resolve. rewrite Et. cbn [bind].
    rewrite (homogeneous_types_all Hd), Hshapes. exact Eout.
  - eapply Forall2_impl; [|exact HF]. intros ? ? [? _]. assumption.
  - intros allow. eapply rebuilt_sequence; [|exact HF]. discriminate.
Qed.

(** C2 (as amended): the resolution step on images whose dtypes are not all
    equal.  Every image is rebuilt with float64 data.  A
    [ModuleImageSequence] constructed from the rebuilt images with
    [same_camera=False] has dtype None when [allow_different_dtypes] is True
    and float64 when it is False.  (The reader's own constructor call, which
    also passes [copy=False], is left out.) *)
Theorem resolve_casts_to_float64 (imgs : list image) (m0 c0 r0 : option Z) :
  Forall (from_reader m0 c0 r0) imgs ->
  homogeneous_types imgs = false ->
  exists out,
    resolve imgs = Return out /\
    length out = length imgs /\
    Forall (fun new => dtype new = float64) out /\
    forall allow,
      ModuleImageSequence_init out false allow
        = Return (mk_sequence ModuleImageSequence out false allow) /\
      ImageSequence_dtype (mk_sequence ModuleImageSequence out false allow)
        = Return (if allow then None else Some float64).
Proof.
  intros Hread Htypes.
  destruct imgs as [|first rest]; [discriminate Htypes|].
  destruct (bounding_shape first rest) as (target & Et & Hge & _).
  set (same_shapes := homogeneous_shapes (map shape (first :: rest))).
  assert (Hall : Forall (fun img => exists new,
              rebuild false same_shapes target img = Return new /\
              (True /\ uniform m0 c0 r0 float64 new))
            (first :: rest)).
  { apply Forall_forall. intros img Hin.
    rewrite Forall_forall in Hread.
    destruct (Hge img Hin) as [Hr Hc].
    destruct (@rebuild_spec _ _ _ false same_shapes target m0 c0 r0 img
                (Hread img Hin) Hr Hc)
      as (d2 & E & Hd2 & _).
    eexists. split; [exact E|]. split; [exact I|].
    unfold uniform, dtype. simpl. rewrite Hd2. auto. }
  apply mapM_exists in Hall as (out & Eout & HF).
  exists out. split; [|split; [|split]].
  - unfold resolve. rewrite Et. cbn [bind].
    rewrite Htypes. fold same_shapes. exact Eout.
  - symmetry. eapply Forall2_length, HF.
  - eapply Forall2_right; [|exact HF].
    intros ? ? [_ (_ & _ & _ & ?)]. assumption.
  - intros allow.
    destruct (@rebuilt_sequence m0 c0 r0 float64 (first :: rest) out
                (fun _ _ => True) allow) as (E1 & _ & E3);
      [discriminate | exact HF | auto].
Qed.

(** Whatever the resolution step returns, line 100 passes the keyword
    [copy] to a constructor that has no such parameter: the reader raises
    TypeError and returns no sequence. *)
Lemma _read_module_images_raises (files : list (string * ndarray V))
    (modality : option Z) (same_camera is_partial : bool) (cols rows : option Z)
    (N : Z) (allow : bool) (imgs : list image) :
  read_and_resolve files modality same_camera is_partial cols rows N
    = Return imgs ->
  _read_module_images files modality same_camera is_partial cols rows N allow
    = (Raise TypeError : outcome sequence).
Proof.
  intros E. unfold _read_module_images. rewrite E. reflexivity.
Qed.

Lemma _read_module_images_never_returns (files : list (string * ndarray V))
    (modality : option Z) (same_camera is_partial : bool) (cols rows : option Z)
    (N : Z) (allow : bool) (s : sequence) :
  _read_module_images files modality same_camera is_partial cols rows N allow
    <> Return s.
Proof.
  destruct (read_and_resolve (Transform := Transform) files modality
              same_camera is_partial cols rows N) as [imgs| |] eqn:E.
  - rewrite (@_read_module_images_raises files modality same_camera
               is_partial cols rows N allow imgs E). discriminate.
  - unfold _read_module_images. rewrite E. discriminate.
  - unfold _read_module_images. rewrite E. discriminate.
Qed.

(** Files that decode to uint16 or float arrays become module images holding
    those arrays, and the branch [not same_camera] resolves them. *)
Lemma read_and_resolve_images (files : list (string * ndarray V))
    (modality cols rows : option Z) :
  Forall (fun f => image_dtype (arr_dtype (snd f))) files ->
  read_and_resolve files modality false false cols rows 0
    = resolve (map (fun f => MkModuleImage (snd f) modality (fst f) cols rows
                               (None : option Transform)) files).
Proof.
  intros Hall. unfold read_and_resolve. simpl andb. cbv iota.
  rewrite mapM_total with
    (g := fun f => MkModuleImage (snd f) modality (fst f) cols rows
                     (None : option Transform)).
  - reflexivity.
  - eapply Forall_impl; [|exact Hall]. intros f Hf.
    unfold _read_module_image. now apply ModuleImage_init_returns.
Qed.

End Resolution.

(** ** The constructors of the sequence classes *)

Lemma shape_eqb_eq (s t : nat * nat) : shape_eqb s t = true <-> s = t.
Proof.
  destruct s as [a b], t as [c d]. unfold shape_eqb. simpl.
  rewrite andb_true_iff, !Nat.eqb_eq. split.
  - intros [-> ->]. reflexivity.
  - intros [= -> ->]. auto.
Qed.

Section ConstructorProperties.
Context {V : Type} `{ArrayLib V} {Transform : Type}.
#[local] Abbreviation image := (image V Transform).
#[local] Abbreviation sequence := (sequence V Transform).

Lemma check_images_outcome (s0 : nat * nat) (d0 : np_dtype) (m0 : option Z)
    (sc adt : bool) (images : list image) :
  check_images s0 d0 m0 sc adt images = Return tt \/
  exists log, check_images s0 d0 m0 sc adt images = Exit log.
Proof.
  induction images as [|img rest IH]; simpl; [now left|].
  destruct (negb (dtype_eqb (dtype img) d0) && negb adt); [right; eauto|].
  destruct (negb (shape_eqb (shape img) s0) && sc); [right; eauto|].
  destruct (negb (optZ_eqb (modality img) m0)); [right; eauto | exact IH].
Qed.

Lemma check_images_Return (s0 : nat * nat) (d0 : np_dtype) (m0 : option Z)
    (sc adt : bool) (images : list image) :
  check_images s0 d0 m0 sc adt images = Return tt <->
  Forall (fun img => (adt = false -> dtype img = d0) /\
                     (sc = true -> shape img = s0) /\
                     modality img = m0) images.
Proof.
  induction images as [|img rest IH]; simpl.
  - split; [constructor | reflexivity].
  - destruct (dtype_eqb (dtype img) d0) eqn:Ed;
      destruct (shape_eqb (shape img) s0) eqn:Es;
      destruct (optZ_eqb (modality img) m0) eqn:Em;
      destruct adt, sc; simpl;
      try apply dtype_eqb_eq in Ed; try apply shape_eqb_eq in Es;
      try apply optZ_eqb_eq in Em;
      try (rewrite IH; split;
           [ intros HF; constructor; [repeat split; auto; discriminate | exact HF]
           | intros HF; exact (Forall_inv_tail HF) ]);
      try (split; [discriminate|]; intros HF;
           pose proof (Forall_inv HF) as (Hd & Hs & Hm); exfalso;
           first [ apply dtype_eqb_neq in Ed; apply Ed, Hd; reflexivity
                 | (assert (shape_eqb (shape img) s0 = true)
                      by (apply shape_eqb_eq, Hs; reflexivity)); congruence
                 | (assert (optZ_eqb (modality img) m0 = true)
                      by (apply optZ_eqb_eq, Hm)); congruence ]).
Qed.

Lemma ImageSequence_init_valid (cls : seq_class) (images : list image)
    (sc adt : bool) :
  valid_images sc adt images <->
  ImageSequence_init cls images sc adt
    = Return (mk_sequence cls images sc adt).
Proof.
  unfold ImageSequence_init, valid_images, agrees.
  destruct images as [|first rest]; [split; [intros [] | discriminate]|].
  rewrite <- check_images_Return. split.
  - intros ->. reflexivity.
  - intros E. apply bind_Return_inv in E as ([] & Ec & _). exact Ec.
Qed.

(** X1: the base constructor returns a sequence exactly when the list is
    not empty and every image agrees with the first one on the modality, on
    the shape if [same_camera] is set, and on the dtype unless
    [allow_different_dtypes] is set; the sequence holds the list and the
    flags as given. *)
Theorem ImageSequence_init_returns_iff (cls : seq_class)
    (images : list image) (sc adt : bool) (s : sequence) :
  ImageSequence_init cls images sc adt = Return s <->
  valid_images sc adt images /\ s = mk_sequence cls images sc adt.
Proof.
  split.
  - intros E. pose proof (ImageSequence_init_inv _ _ _ _ E) as ->.
    split; [|reflexivity]. apply (ImageSequence_init_valid cls), E.
  - intros [Hv ->]. apply ImageSequence_init_valid, Hv.
Qed.

(** X2: an image whose modality differs from that of the first image makes
    the base constructor log an error and exit, whatever the two flags. *)
Theorem mixed_modalities_exit (cls : seq_class) (first img : image)
    (rest : list image) (sc adt : bool) :
  In img rest -> modality img <> modality first ->
  exists log, ImageSequence_init cls (first :: rest) sc adt = Exit log.
Proof.
  intros Hin Hm. unfold ImageSequence_init.
  destruct (check_images_outcome (shape first) (dtype first) (modality first)
              sc adt (first :: rest)) as [E | (log & E)].
  - apply check_images_Return in E. rewrite Forall_forall in E.
    destruct (E img (or_intror Hin)) as (_ & _ & Hm'). contradiction.
  - exists log. rewrite E. reflexivity.
Qed.

Lemma check_geometry_Return (c0 r0 : option Z) (images : list image) :
  check_geometry c0 r0 images = Return tt ->
  Forall (fun img => cols img = Return c0 /\ rows img = Return r0) images.
Proof.
  induction images as [|img rest IH]; simpl; intros E; [constructor|].
  destruct (cols img) as [c| |] eqn:Ec; simpl in E; try discriminate E.
  destruct (optZ_eqb c c0) eqn:Ecc; simpl in E; [|discriminate E].
  destruct (rows img) as [r| |] eqn:Er; simpl in E; try discriminate E.
  destruct (optZ_eqb r r0) eqn:Err; simpl in E; [|discriminate E].
  apply optZ_eqb_eq in Ecc, Err. subst. constructor; auto.
Qed.

Lemma check_geometry_mismatch (c0 r0 : option Z) (images : list image) :
  Forall (fun img => exists c r, cols img = Return c /\ rows img = Return r)
    images ->
  Exists (fun img => cols img <> Return c0 \/ rows img <> Return r0) images ->
  check_geometry c0 r0 images = Exit DifferentModuleConfigurations.
Proof.
  induction 1 as [|img rest (c & r & Ec & Er) _ IH]; intros Hex.
  - inversion Hex.
  - simpl. rewrite Ec, Er. simpl.
    destruct (optZ_eqb c c0) eqn:Ecc; simpl; [|reflexivity].
    destruct (optZ_eqb r r0) eqn:Err; simpl; [|reflexivity].
    apply optZ_eqb_eq in Ecc, Err. subst.
    apply IH. inversion Hex as [? ? [Hc | Hr] | ? ? Ht]; subst;
      [contradiction | contradiction | exact Ht].
Qed.

(** X3: a module sequence is returned exactly when all images are module
    images of one geometry ([cols] and [rows]) and the list passes the base
    constructor. *)
Theorem ModuleImageSequence_init_returns_iff (images : list image)
    (sc adt : bool) (s : sequence) :
  ModuleImageSequence_init images sc adt = Return s <->
  one_geometry images /\ valid_images sc adt images /\
  s = mk_sequence ModuleImageSequence images sc adt.
Proof.
  split.
  - intros E. pose proof (ModuleImageSequence_init_inv _ _ _ E) as Hs.
    unfold ModuleImageSequence_init in E.
    destruct images as [|first rest]; [discriminate E|].
    apply bind_Return_inv in E as (c0 & Ec & E).
    apply bind_Return_inv in E as (r0 & Er & E).
    apply bind_Return_inv in E as ([] & Eg & E).
    pose proof (ImageSequence_init_inv _ _ _ _ E) as ->.
    apply ImageSequence_init_valid in E.
    split; [|split; [exact E | exact Hs]].
    exists c0, r0. apply check_geometry_Return, Eg.
  - intros ((c0 & r0 & Hg) & Hv & ->).
    destruct images as [|first rest]; [destruct Hv|].
    unfold ModuleImageSequence_init.
    destruct (Forall_inv Hg) as [Ec Er]. rewrite Ec, Er. cbn [bind].
    rewrite (check_geometry_uniform Hg). cbn [bind].
    apply ImageSequence_init_valid, Hv.
Qed.

(** X4: when some module image of the list has other [cols] or [rows] than
    the first one, [ModuleImageSequence] logs the geometry error and exits,
    before any check of the base constructor and whatever the flags. *)
Theorem geometry_mismatch_exits (first : image) (rest : list image)
    (c0 r0 : option Z) (sc adt : bool) :
  cols first = Return c0 -> rows first = Return r0 ->
  Forall (fun img => exists c r, cols img = Return c /\ rows img = Return r)
    rest ->
  Exists (fun img => cols img <> Return c0 \/ rows img <> Return r0) rest ->
  ModuleImageSequence_init (first :: rest) sc adt
    = Exit DifferentModuleConfigurations.
Proof.
  intros Ec Er Hmod Hex. unfold ModuleImageSequence_init.
  rewrite Ec, Er. cbn [bind].
  rewrite check_geometry_mismatch; [reflexivity | |].
  - constructor; [eauto | exact Hmod].
  - apply Exists_cons_tl, Hex.
Qed.

(** X5: on a sequence the base constructor returned, the property
    [modality] is the modality of every image; [dtype], when it is not None,
    is the dtype of every image, and [shape], when it is not None, the shape
    of every image. *)
Theorem properties_describe_every_image (cls : seq_class)
    (images : list image) (sc adt : bool) (s : sequence) :
  ImageSequence_init cls images sc adt = Return s ->
  (exists m, ImageSequence_modality s = Return m /\
             Forall (fun img => modality img = m) (_images s)) /\
  (exists d, ImageSequence_dtype s = Return d /\
             forall d', d = Some d' ->
               Forall (fun img => dtype img = d') (_images s)) /\
  (exists sh, ImageSequence_shape s = Return sh /\
              forall sh', sh = Some sh' ->
                Forall (fun img => shape img = sh') (_images s)).
Proof.
  intros E. pose proof (ImageSequence_init_inv _ _ _ _ E) as ->.
  apply ImageSequence_init_valid in E. unfold valid_images in E.
  destruct images as [|first rest]; [destruct E|]. simpl.
  split; [|split].
  - exists (modality first). split; [reflexivity|].
    eapply Forall_impl; [|exact E]. intros img (_ & _ & Hm). exact Hm.
  - unfold ImageSequence_dtype. simpl. destruct adt; simpl.
    + exists None. split; [reflexivity | discriminate].
    + exists (Some (dtype first)). split; [reflexivity|].
      intros d' [= <-]. eapply Forall_impl; [|exact E].
      intros img (Hd & _). apply Hd. reflexivity.
  - unfold ImageSequence_shape. simpl. destruct sc; simpl.
    + exists (Some (shape first)). split; [reflexivity|].
      intros sh' [= <-]. eapply Forall_impl; [|exact E].
      intros img (_ & Hs & _). apply Hs. reflexivity.
    + exists None. split; [reflexivity | discriminate].
Qed.

(** *** Cloning a sequence *)

Lemma from_other_nothing (cls : seq_class) (other : sequence) :
  from_other cls other [] =
    match cls with
    | ImageSequence =>
        ImageSequence_init ImageSequence (_images other) (_same_camera other)
          (_allow_different_dtypes other)
    | ModuleImageSequence =>
        ModuleImageSequence_init (_images other) (_same_camera other)
          (_allow_different_dtypes other)
    | CellImageSequence => Raise AttributeError
    end.
Proof. destruct other as [c imgs sc adt]; destruct cls; reflexivity. Qed.

(** X6: a sequence that the constructor of its class [cls(images,
    same_camera, allow_different_dtypes)] returned is reproduced by
    [cls.from_other] without overrides. *)
Theorem from_other_reproduces (cls : seq_class) (images : list image)
    (sc adt : bool) (s : sequence) :
  new_sequence cls [VImages images; VBool sc; VBool adt] [] = Return s ->
  class_of s = cls /\ from_other cls s [] = Return s.
Proof.
  intros E. rewrite from_other_nothing.
  destruct cls.
  - change (ImageSequence_init ImageSequence images sc adt = Return s) in E.
    pose proof (ImageSequence_init_inv _ _ _ _ E) as ->. simpl. auto.
  - discriminate E.
  - change (ModuleImageSequence_init images sc adt = Return s) in E.
    pose proof (ModuleImageSequence_init_inv _ _ _ E) as ->. simpl. auto.
Qed.

(** X7: [CellImageSequence.from_other] raises AttributeError unless [copy]
    is among the overrides: the constructor has a parameter [copy], and no
    sequence has an attribute [_copy]. *)
Theorem CellImageSequence_from_other_raises (other : sequence)
    (kw : kwargs V Transform) :
  mem "copy" (map fst kw) = false ->
  from_other CellImageSequence other kw = Raise AttributeError.
Proof.
  intros Hc. unfold from_other. cbn [init_params filter].
  rewrite Hc. cbn [negb].
  destruct (negb (mem "images" (map fst kw))); reflexivity.
Qed.

(** *** Operations that rebuild a sequence *)

(** X8: [apply_image_data] returns a sequence of the same class and flags
    whose image [i] is image [i] of the original with its data replaced by
    what [fn] returned for it, converted to a common dtype; class, path,
    modality and geometry of every image are kept. *)
Theorem apply_image_data_keeps_metadata (self s' : sequence)
    (fn : ndarray V -> outcome (ndarray V)) :
  apply_image_data self fn = Return s' ->
  class_of s' = class_of self /\
  _same_camera s' = _same_camera self /\
  _allow_different_dtypes s' = _allow_different_dtypes self /\
  Forall2 (fun img new =>
             exists d, fn (data img) = Return d /\
               common_dtype d = Return (data new) /\
               new = with_data img (data new))
    (_images self) (_images s').
Proof.
  intros E. unfold apply_image_data in E.
  apply bind_Return_inv in E as (result & Er & E).
  rewrite from_other_images in E.
  assert (Hs : s' = mk_sequence (class_of self) result (_same_camera self)
                      (_allow_different_dtypes self)).
  { destruct (class_of self).
    - apply ImageSequence_init_inv in E. exact E.
    - discriminate E.
    - apply ModuleImageSequence_init_inv in E. exact E. }
  subst s'. simpl. repeat split.
  apply mapM_Forall2 in Er.
  eapply Forall2_impl; [|exact Er]. intros img new En.
  apply bind_Return_inv in En as (d & Ed & En).
  rewrite from_other_data_eq in En.
  apply bind_Return_inv in En as (d' & Ed' & En). injection En as <-.
  exists d. rewrite with_data_data. auto.
Qed.

Lemma as_type_uint16_dtype (img img' : image) :
  as_type img uint16 = Return img' -> dtype img' = uint16.
Proof.
  unfold as_type. simpl. intros E.
  apply bind_Return_inv in E as (d & Ed & E).
  pose proof (img_as_uint_dtype _ Ed) as Hd.
  rewrite from_other_data_eq, (common_dtype_uint16 _ Hd) in E.
  simpl in E. injection E as <-. unfold dtype. now rewrite with_data_data.
Qed.

(** X9: converting a sequence to uint16 gives a sequence of uint16 images
    that a second conversion returns unchanged. *)
Theorem ImageSequence_as_type_uint16_idempotent (self s' : sequence) :
  ImageSequence_as_type self uint16 = Return s' ->
  Forall (fun img => dtype img = uint16) (_images s') /\
  ImageSequence_as_type s' uint16 = Return s'.
Proof.
  intros E. unfold ImageSequence_as_type in E.
  apply bind_Return_inv in E as (result & Er & E).
  assert (Hu : Forall (fun img : image => dtype img = uint16) result).
  { apply mapM_Forall2 in Er. eapply Forall2_right; [|exact Er].
    intros x y. apply as_type_uint16_dtype. }
  rewrite from_other_images in E.
  assert (Hs : s' = mk_sequence (class_of self) result (_same_camera self)
                      (_allow_different_dtypes self)).
  { destruct (class_of self).
    - apply ImageSequence_init_inv in E. exact E.
    - discriminate E.
    - apply ModuleImageSequence_init_inv in E. exact E. }
  split; [subst s'; exact Hu|].
  unfold ImageSequence_as_type.
  assert (Hm : mapM (fun img : image => as_type img uint16) (_images s')
               = Return (_images s')).
  { subst s'. simpl. rewrite <- (map_id result) at 2.
    apply mapM_total. eapply Forall_impl; [|exact Hu].
    intros img Hd. apply as_type_uint16_fixed, Hd. }
  rewrite Hm. cbn [bind]. rewrite from_other_images.
  subst s'. simpl. exact E.
Qed.

End ConstructorProperties.

(** ** Derived images *)

Section DerivedImages.
Context {V : Type} `{ArrayLib V} {Transform : Type}.
#[local] Abbreviation image := (image V Transform).

(** X10: the result of an operator on two images is the left operand with
    new data: class, path, modality and geometry come from the left operand
    and nothing from the right; the operands had one dtype, or two float
    dtypes for [/]; and the result has one of the three image dtypes. *)
Theorem Image_arith_keeps_left_operand (op : binop) (self other r : image) :
  Image_arith op self other = Return r ->
  r = with_data self (data r) /\
  image_dtype (dtype r) /\
  match op with
  | TrueDiv => is_float (dtype self) = true /\ is_float (dtype other) = true
  | _ => dtype self = dtype other
  end.
Proof.
  intros E.
  assert (Hc : (if match op with TrueDiv => true | _ => false end
                then is_float (dtype self) = true /\ is_float (dtype other) = true
                else dtype self = dtype other) /\
               (d <- np_arith op (data self) (data other) ;;
                from_other_data self d) = Return r).
  { destruct op; simpl in E;
      try (destruct (dtype_eqb (dtype self) (dtype other)) eqn:Ed;
           simpl in E; [|discriminate E];
           apply dtype_eqb_eq in Ed; split; [exact Ed | exact E]).
    destruct (is_float (dtype self)), (is_float (dtype other));
      simpl in E; try discriminate E. auto. }
  destruct Hc as [Hpre Hr].
  apply bind_Return_inv in Hr as (d & _ & Hr).
  rewrite from_other_data_eq in Hr.
  apply bind_Return_inv in Hr as (d' & Hd' & Hr). injection Hr as <-.
  rewrite with_data_data. split; [reflexivity|]. split.
  - unfold dtype. rewrite with_data_data.
    eapply common_dtype_image_dtype, Hd'.
  - destruct op; exact Hpre.
Qed.

(** [/] is refused as soon as one operand is not a float image; in
    particular two uint16 images cannot be divided. *)
Lemma TrueDiv_needs_floats (self other : image) :
  is_float (dtype self) && is_float (dtype other) = false ->
  Image_arith TrueDiv self other
    = Raise (RuntimeError "Images must be of type float").
Proof.
  intros Hf. simpl.
  destruct (is_float (dtype self)), (is_float (dtype other));
    try discriminate Hf; reflexivity.
Qed.

End DerivedImages.

(** ** The order of the grid *)

Lemma nth_error_list_prod {A B : Type} (l : list A) (l' : list B) (a b : nat)
    (x : A) (y : B) :
  nth_error l a = Some x -> nth_error l' b = Some y ->
  nth_error (list_prod l l') (a * length l' + b) = Some (x, y).
Proof.
  revert a. induction l as [|x0 l IH]; intros a Hx Hy.
  - destruct a; discriminate Hx.
  - simpl. destruct a as [|a]; simpl in Hx.
    + injection Hx as ->. simpl.
      rewrite nth_error_app1
        by (rewrite length_map; apply nth_error_Some; congruence).
      rewrite nth_error_map, Hy. reflexivity.
    + rewrite nth_error_app2 by (rewrite length_map; simpl; lia).
      rewrite length_map.
      replace (S a * length l' + b - length l') with (a * length l' + b)
        by (simpl; lia).
      apply IH; assumption.
Qed.

Lemma nth_error_arange (n : Z) (k : nat) :
  k < Z.to_nat n -> nth_error (arange n) k = Some (Z.of_nat k).
Proof.
  intros Hk. unfold arange. rewrite nth_error_map, nth_error_seq.
  apply Nat.ltb_lt in Hk. rewrite Hk. reflexivity.
Qed.

Section GridOrder.
Context {V : Type} {Transform : Type}.
#[local] Abbreviation image := (image V Transform).

(** X11: the grid is ordered by x and then by y: the corner (i, j) is row
    number i * (rows + 1) + j of the array. *)
Theorem grid_row_of_corner (img : image) (c r : Z) (g : list (Z * Z))
    (i j : nat) :
  cols img = Return (Some c) -> rows img = Return (Some r) ->
  grid img = Return g ->
  (Z.of_nat i <= c)%Z -> (Z.of_nat j <= r)%Z ->
  nth_error g (i * Z.to_nat (r + 1) + j) = Some (Z.of_nat i, Z.of_nat j).
Proof.
  intros Hc Hr Hg Hi Hj.
  assert (E : g = list_prod (arange (c + 1)) (arange (r + 1))).
  { rewrite (grid_of_geometry img Hc Hr) in Hg.
    assert (Hb : (c + 1 <? 0)%Z || (r + 1 <? 0)%Z = false)
      by (apply orb_false_iff; split; apply Z.ltb_ge; lia).
    rewrite Hb in Hg. now injection Hg. }
  subst g. rewrite <- (arange_length (r + 1)).
  apply nth_error_list_prod; apply nth_error_arange; lia.
Qed.

End GridOrder.

(** ** More on the sequence adapter *)

Section AdapterWrapping.
Context {V : Type} `{ArrayLib V} {Transform : Type}.
#[local] Abbreviation image := (image V Transform).
#[local] Abbreviation sequence := (sequence V Transform).
#[local] Abbreviation pyvalue := (pyvalue V Transform).
#[local] Abbreviation function := (function V Transform).

(** X14: only an object whose class is exactly [ModuleImage] is wrapped in
    a [ModuleImageSequence]; a [PartialModuleImage] reaches the decorated
    function in a plain [ImageSequence]. *)
Theorem partial_module_image_wrapped_plain (func : function)
    (d : ndarray V) (m : option Z) (p : string)
    (c r fc fr : option Z) (t : option Transform) (rest : list pyvalue) :
  wrapper_sequence true func
    (PyImage (MkPartialModuleImage d m p c r fc fr t) :: rest)
  = func (PySequence
            (mk_sequence ImageSequence
               [MkPartialModuleImage d m p c r fc fr t] false false) :: rest).
Proof.
  unfold wrapper_sequence. rewrite wrap_first_image. simpl.
  destruct (func _); reflexivity.
Qed.

(** A result that is neither a sequence nor a tuple is handed back as it
    is, also when a single image was passed and unwrapping is on. *)
Lemma other_result_passes_through (func : function) (img : image)
    (rest : list pyvalue) (id : nat) :
  func (PySequence (singleton img) :: rest) = Return (PyOther id) ->
  wrapper_sequence false func (PyImage img :: rest) = Return (PyOther id).
Proof.
  intros Hf. unfold wrapper_sequence. rewrite wrap_first_image. simpl.
  rewrite Hf. reflexivity.
Qed.

End AdapterWrapping.

(** ** More on the bulk reader *)

Section ReaderEdges.
Context {V : Type} `{ArrayLib V} {Transform : Type}.
#[local] Abbreviation image := (image V Transform).
#[local] Abbreviation sequence := (sequence V Transform).

(** X15: [read_module_images] and [read_partial_module_images] return no
    sequence, whatever they are given: every call ends in an exception or
    in an exit. *)
Theorem bulk_readers_return_nothing (files : list (string * ndarray V))
    (modality : option Z) (same_camera : bool) (cols rows : option Z) (N : Z)
    (allow : bool) :
  ((exists e, read_module_images (Transform := Transform) files modality
                same_camera cols rows N allow = Raise e) \/
   (exists log, read_module_images (Transform := Transform) files modality
                  same_camera cols rows N allow = Exit log)) /\
  ((exists e, read_partial_module_images (Transform := Transform) files
                modality same_camera cols rows N allow = Raise e) \/
   (exists log, read_partial_module_images (Transform := Transform) files
                  modality same_camera cols rows N allow = Exit log)).
Proof.
  unfold read_module_images, read_partial_module_images. split.
  - pose proof (@_read_module_images_never_returns V _ Transform files
                  modality same_camera false cols rows N allow) as Hn.
    destruct (_read_module_images files modality same_camera false cols rows
                N allow) as [s|e|log]; [destruct (Hn s eq_refl) | eauto | eauto].
  - pose proof (@_read_module_images_never_returns V _ Transform files
                  modality same_camera true cols rows N allow) as Hn.
    destruct (_read_module_images files modality same_camera true cols rows
                N allow) as [s|e|log]; [destruct (Hn s eq_refl) | eauto | eauto].
Qed.

(** X16: with no file found and [same_camera=False] the reader fails on the
    bounding shape of an empty list (ValueError) before it reaches the
    constructor; with [same_camera=True] it fails at the constructor call
    (TypeError). *)
Theorem reading_no_files (modality : option Z) (is_partial : bool)
    (cols rows : option Z) (N : Z) (allow : bool) :
  _read_module_images (Transform := Transform) [] modality false is_partial
    cols rows N allow = Raise ValueError /\
  _read_module_images (Transform := Transform) [] modality true is_partial
    cols rows N allow = Raise TypeError.
Proof.
  unfold _read_module_images, read_and_resolve.
  destruct ((0 <? N)%Z && (N <? Z.of_nat (length (@nil (string * ndarray V))))%Z);
    rewrite ?firstn_nil; split; reflexivity.
Qed.

(** Images of one dtype and one shape are left as they are by the
    resolution step. *)
Lemma resolve_leaves_homogeneous (imgs : list image) :
  imgs <> [] ->
  homogeneous_types imgs = true ->
  homogeneous_shapes (map shape imgs) = true ->
  resolve imgs = Return imgs.
Proof.
  intros Hne Ht Hs. unfold resolve.
  destruct imgs as [|first rest]; [contradiction|].
  rewrite Ht, Hs. reflexivity.
Qed.

Lemma rebuild_dtype_shape (same_types same_shapes : bool)
    (target : nat * nat) (m0 c0 r0 : option Z) (img : image) :
  from_reader m0 c0 r0 img ->
  fst (shape img) <= fst target -> snd (shape img) <= snd target ->
  exists d2,
    rebuild same_types same_shapes target img
      = Return (MkModuleImage d2 m0 (path img) c0 r0 None) /\
    arr_dtype d2 = (if same_types then dtype img else float64) /\
    arr_shape d2 = (if same_shapes then shape img else target) /\
    well_formed d2 /\ arr_flat d2 <> [].
Proof.
  intros (Hm & Hc & Hr & Hd & Hwf & Hne) Hfst Hsnd.
  set (d1 := if negb same_types then astype (data img) float64 else data img).
  assert (Hd1 : arr_dtype d1 = if same_types then dtype img else float64)
    by (subst d1; destruct same_types; reflexivity).
  assert (Hid1 : image_dtype (arr_dtype d1)).
  { rewrite Hd1. destruct same_types; [exact Hd | right; right; reflexivity]. }
  assert (Hwf1 : well_formed d1)
    by (subst d1; destruct same_types; simpl;
        [exact Hwf | apply astype_well_formed, Hwf]).
  assert (Hs1 : arr_shape d1 = shape img)
    by (subst d1; destruct same_types; reflexivity).
  assert (Hne1 : arr_flat d1 <> []).
  { subst d1. destruct same_types; simpl; [exact Hne|].
    destruct (arr_flat (data img)); [contradiction | discriminate]. }
  unfold rebuild. fold d1. rewrite Hc, Hr, Hm.
  destruct same_shapes; simpl negb; cbv iota.
  - exists d1. simpl bind.
    rewrite ModuleImage_init_returns by exact Hid1. auto.
  - destruct (np_min_returns d1 Hne1) as (m & Em).
    destruct (@paste_on_full _ _ target m d1 Hwf1) as
      (canvas & Ec & Hcs & Hcd & Hcw & Hcn & _);
      [rewrite Hs1; exact Hfst | rewrite Hs1; exact Hsnd |].
    exists canvas. rewrite Em. simpl bind. rewrite Ec. simpl bind.
    rewrite ModuleImage_init_returns by (rewrite Hcd; exact Hid1).
    split; [reflexivity|]. split; [congruence|]. auto.
Qed.

Lemma homogeneous_shapes_all (imgs : list image) (sh : nat * nat) :
  Forall (fun img => shape img = sh) imgs ->
  homogeneous_shapes (map shape imgs) = true.
Proof.
  intros Hall. destruct imgs as [|first rest]; [reflexivity|].
  simpl map. unfold homogeneous_shapes. apply forallb_forall. intros t Ht.
  change (In t (map shape (first :: rest))) in Ht.
  apply in_map_iff in Ht as (img & <- & Hin).
  rewrite Forall_forall in Hall.
  rewrite (Hall img Hin), (Hall first (or_introl eq_refl)).
  apply shape_eqb_refl.
Qed.

(** X17: the resolution step is idempotent: what it returns for images of
    the reader is a list of one dtype and one shape, which a second run
    returns unchanged. *)
Theorem resolve_is_idempotent (imgs out : list image) (m0 c0 r0 : option Z) :
  Forall (from_reader m0 c0 r0) imgs ->
  resolve imgs = Return out ->
  homogeneous_types out = true /\
  homogeneous_shapes (map shape out) = true /\
  resolve out = Return out.
Proof.
  intros Hread E.
  destruct imgs as [|first rest]; [discriminate E|].
  assert (Hgoal : homogeneous_types out = true /\
                  homogeneous_shapes (map shape out) = true /\ out <> []).
  { destruct (bounding_shape first rest) as (target & Et & Hge & _).
    unfold resolve in E. rewrite Et in E. cbn [bind] in E.
    set (st := homogeneous_types (first :: rest)) in *.
    set (ss := homogeneous_shapes (map shape (first :: rest))) in *.
    destruct (negb st || negb ss) eqn:Hb.
    - apply mapM_Forall2 in E.
      assert (Hst : st = true ->
                Forall (fun img : image => dtype img = dtype first)
                  (first :: rest)).
      { intros Hs. subst st. unfold homogeneous_types in Hs.
        rewrite forallb_forall in Hs. apply Forall_forall. intros img Hin.
        apply dtype_eqb_eq, Hs, Hin. }
      assert (Hss : ss = true ->
                Forall (fun img : image => shape img = shape first)
                  (first :: rest)).
      { intros Hs. subst ss. simpl map in Hs. unfold homogeneous_shapes in Hs.
        rewrite forallb_forall in Hs. apply Forall_forall. intros img Hin.
        apply shape_eqb_eq, Hs. change (In (shape img) (map shape (first :: rest))).
        apply in_map, Hin. }
      assert (Hp : Forall (fun img : image =>
                from_reader m0 c0 r0 img /\
                (fst (shape img) <= fst target /\
                 snd (shape img) <= snd target) /\
                (st = true -> dtype img = dtype first) /\
                (ss = true -> shape img = shape first)) (first :: rest)).
      { apply Forall_forall. intros img Hin. rewrite Forall_forall in Hread.
        split; [exact (Hread img Hin)|]. split; [exact (Hge img Hin)|].
        split; intros Hs.
        - pose proof (Hst Hs) as Hall. rewrite Forall_forall in Hall.
          exact (Hall img Hin).
        - pose proof (Hss Hs) as Hall. rewrite Forall_forall in Hall.
          exact (Hall img Hin). }
      assert (Hnew : Forall (fun new : image =>
                dtype new = (if st then dtype first else float64) /\
                shape new = (if ss then shape first else target)) out).
      { clear Hb Hst Hss Et Hge Hread. clearbody st ss.
        remember (first :: rest) as l eqn:El. clear El.
        induction E as [|img new l out' En _ IH]; constructor.
        - destruct (Forall_inv Hp) as (Hrd & [Hr Hc] & Hdt & Hsh).
          destruct (@rebuild_dtype_shape st ss target m0 c0 r0 img Hrd Hr Hc)
            as (d2 & E2 & Hd2 & Hs2 & _).
          rewrite E2 in En. injection En as <-. unfold dtype, shape. simpl.
          rewrite Hd2, Hs2. split.
          + destruct st; [apply Hdt; reflexivity | reflexivity].
          + destruct ss; [apply Hsh; reflexivity | reflexivity].
        - apply IH. exact (Forall_inv_tail Hp). }
      split; [|split].
      + eapply homogeneous_types_all, Forall_impl; [|exact Hnew].
        intros ? [? _]. eassumption.
      + eapply homogeneous_shapes_all, Forall_impl; [|exact Hnew].
        intros ? [_ ?]. eassumption.
      + inversion E. discriminate.
    - injection E as <-.
      apply orb_false_iff in Hb as [H1 H2]. apply negb_false_iff in H1, H2.
      split; [exact H1|]. split; [exact H2 | discriminate]. }
  destruct Hgoal as (Ht & Hs & Hne).
  split; [exact Ht|]. split; [exact Hs|].
  apply resolve_leaves_homogeneous; assumption.
Qed.

(** X18: when the resolution step rebuilds, every image comes back as a
    plain [ModuleImage] without transform, with the path of the original
    and the modality and geometry of the call; a [PartialModuleImage] loses
    its class and its [first_col] and [first_row]. *)
Theorem resolve_rebuilds_as_ModuleImage (imgs : list image)
    (m0 c0 r0 : option Z) :
  Forall (from_reader m0 c0 r0) imgs ->
  homogeneous_types imgs && homogeneous_shapes (map shape imgs) = false ->
  exists out,
    resolve imgs = Return out /\
    Forall2 (fun img new =>
               exists d, new = MkModuleImage d m0 (path img) c0 r0 None)
      imgs out.
Proof.
  intros Hread Hh.
  destruct imgs as [|first rest]; [discriminate Hh|].
  destruct (bounding_shape first rest) as (target & Et & Hge & _).
  set (st := homogeneous_types (first :: rest)) in *.
  set (ss := homogeneous_shapes (map shape (first :: rest))) in *.
  assert (Hall : Forall (fun img => exists new,
              rebuild st ss target img = Return new /\
              exists d, new = MkModuleImage d m0 (path img) c0 r0 None)
            (first :: rest)).
  { apply Forall_forall. intros img Hin. rewrite Forall_forall in Hread.
    destruct (Hge img Hin) as [Hr Hc].
    destruct (@rebuild_spec _ _ _ st ss target m0 c0 r0 img
                (Hread img Hin) Hr Hc) as (d2 & E & _).
    eexists. split; [exact E|]. eexists. reflexivity. }
  apply mapM_exists in Hall as (out & Eout & HF).
  exists out. split; [|exact HF].
  unfold resolve. rewrite Et. cbn [bind]. fold st ss.
  destruct st, ss; try discriminate Hh; exact Eout.
Qed.





End ReaderEdges.

(** ** Slices of a sequence *)

Section Slices.
Context {V : Type} {Transform : Type}.
#[local] Abbreviation sequence := (sequence V Transform).

(** X20: for N >= 0, [head] shows the first min(N, len) images; [tail]
    shows the last min(N, len) images when N > 0, but the whole sequence
    when N = 0. *)
Theorem head_and_tail_selection (self : sequence) (N : Z) :
  (0 <= N)%Z ->
  head_images self N = firstn (Z.to_nat N) (_images self) /\
  tail_images self N =
    (if (N =? 0)%Z then _images self
     else skipn (length (_images self) - Z.to_nat N) (_images self)).
Proof.
  intros HN. unfold head_images, tail_images, py_slice_until, py_slice_from,
    slice_bound.
  set (l := _images self). split.
  - destruct (N <? 0)%Z eqn:E; [apply Z.ltb_lt in E; lia|].
    destruct (Z.le_gt_cases N (Z.of_nat (length l))) as [Hle | Hgt].
    + now rewrite Z.min_l by exact Hle.
    + rewrite Z.min_r by lia. rewrite Nat2Z.id.
      rewrite firstn_all. symmetry. apply firstn_all2. lia.
  - destruct (N =? 0)%Z eqn:E0.
    + apply Z.eqb_eq in E0. subst N. change (- 0 <? 0)%Z with false.
      cbv iota. change (- 0)%Z with 0%Z. rewrite Z.min_l by lia.
      reflexivity.
    + apply Z.eqb_neq in E0.
      destruct (- N <? 0)%Z eqn:E; [|apply Z.ltb_ge in E; lia].
      f_equal. lia.
Qed.

End Slices.

(** ** File names of saved cell images *)

Lemma length_append (a b : string) :
  String.length (String.append a b) = String.length a + String.length b.
Proof. induction a as [|c a IH]; simpl; [reflexivity | now rewrite IH]. Qed.

Lemma append_inj_l (s a b : string) :
  String.append s a = String.append s b -> a = b.
Proof.
  induction s as [|c s IH]; simpl; intros E; [exact E|].
  injection E as E. apply IH, E.
Qed.

Lemma append_inj_r (s a b : string) :
  String.append a s = String.append b s -> a = b.
Proof.
  revert b. induction a as [|c a IH]; intros [|c' b] E; simpl in E.
  - reflexivity.
  - apply (f_equal String.length) in E. simpl in E.
    rewrite length_append in E. lia.
  - apply (f_equal String.length) in E. simpl in E.
    rewrite length_append in E. lia.
  - injection E as -> E. f_equal. apply IH, E.
Qed.

Lemma has_char_append (c : ascii) (a b : string) :
  has_char c (String.append a b) = has_char c a || has_char c b.
Proof.
  induction a as [|x a IH]; simpl; [reflexivity|].
  now rewrite IH, orb_assoc.
Qed.

(** Two strings cut at their first occurrence of a character. *)
Lemma first_occurrence (c : ascii) (a b x y : string) :
  has_char c a = false -> has_char c b = false ->
  String.append a (String c x) = String.append b (String c y) ->
  a = b /\ x = y.
Proof.
  revert b. induction a as [|u a IH]; intros [|v b] Ha Hb E; simpl in *.
  - injection E as ->. auto.
  - injection E as <- _. rewrite Ascii.eqb_refl in Hb. discriminate Hb.
  - injection E as -> _. rewrite Ascii.eqb_refl in Ha. discriminate Ha.
  - injection E as -> E.
    apply orb_false_iff in Ha as [_ Ha]. apply orb_false_iff in Hb as [_ Hb].
    destruct (IH b Ha Hb E) as [-> ->]. auto.
Qed.

Lemma digit_differs (a c : ascii) :
  parse_decimal (String c EmptyString) = None ->
  parse_decimal (String a EmptyString) <> None ->
  Ascii.eqb a c = false.
Proof.
  intros Hc Ha. destruct (Ascii.eqb a c) eqn:E; [|reflexivity].
  apply Ascii.eqb_eq in E. subst. contradiction.
Qed.

Lemma digits_have_no (c : ascii) (d : Decimal.uint) :
  parse_decimal (String c EmptyString) = None ->
  has_char c (NilEmpty.string_of_uint d) = false.
Proof.
  intros Hc.
  induction d; cbn [NilEmpty.string_of_uint has_char]; try reflexivity;
    rewrite IHd, orb_false_r; apply (@digit_differs _ c Hc);
    intros E; vm_compute in E; discriminate E.
Qed.

Lemma decimal_has_no (c : ascii) (n : nat) :
  parse_decimal (String c EmptyString) = None ->
  has_char c (decimal n) = false.
Proof.
  intros Hc. unfold decimal, NilZero.string_of_uint.
  pose proof (@digits_have_no c (Nat.to_uint n) Hc) as Hd.
  destruct (Nat.to_uint n); try exact Hd.
  cbn [has_char]. rewrite orb_false_r. apply (@digit_differs _ c Hc).
  intros E. vm_compute in E. discriminate E.
Qed.

Lemma parse_decimal_decimal (n : nat) : parse_decimal (decimal n) = Some n.
Proof.
  unfold parse_decimal, decimal, NilZero.string_of_uint.
  pose proof (DecimalNat.Unsigned.of_to n) as Hn.
  destruct (Nat.to_uint n) eqn:E;
    try (rewrite NilEmpty.usu; cbn [option_map]; f_equal; exact Hn).
  vm_compute in Hn. subst n. reflexivity.
Qed.

Lemma parse_decimal_zero (s : string) :
  parse_decimal (String "0" s) = parse_decimal s.
Proof.
  unfold parse_decimal. simpl.
  destruct (NilEmpty.uint_of_string s); reflexivity.
Qed.

Lemma parse_decimal_minus (s : string) : parse_decimal (String "-" s) = None.
Proof.
  unfold parse_decimal. simpl.
  destruct (NilEmpty.uint_of_string s); reflexivity.
Qed.

Lemma format_02d_has_no_underscore (z : Z) : has_char "_" (format_02d z) = false.
Proof.
  unfold format_02d.
  destruct (z <? 0)%Z; [|destruct (z <? 10)%Z]; simpl;
    apply decimal_has_no; reflexivity.
Qed.

Lemma format_02d_parse (z : Z) :
  parse_decimal (format_02d z)
    = if (z <? 0)%Z then None else Some (Z.to_nat z).
Proof.
  unfold format_02d.
  destruct (z <? 0)%Z; [|destruct (z <? 10)%Z]; simpl.
  - apply parse_decimal_minus.
  - rewrite parse_decimal_zero. apply parse_decimal_decimal.
  - apply parse_decimal_decimal.
Qed.

Lemma format_02d_inj (z z' : Z) : format_02d z = format_02d z' -> z = z'.
Proof.
  intros E. pose proof (f_equal parse_decimal E) as Ep.
  rewrite !format_02d_parse in Ep.
  destruct (z <? 0)%Z eqn:Hz, (z' <? 0)%Z eqn:Hz'; try discriminate Ep.
  - unfold format_02d in E. rewrite Hz, Hz' in E. simpl in E.
    injection E as E. apply (f_equal parse_decimal) in E.
    rewrite !parse_decimal_decimal in E. injection E as E.
    apply Z.ltb_lt in Hz, Hz'. lia.
  - injection Ep as Ep. apply Z.ltb_ge in Hz, Hz'. lia.
Qed.

Section SavingProperties.
Context {V : Type} {Transform : Type}.
#[local] Abbreviation image := (image V Transform).
Variables path_name path_stem path_suffix : string -> string.

(** X21: two cell images cut from one file are saved under one name only
    if they have the same row and the same column. *)
Theorem cell_names_are_distinct (d d' : ndarray V) (m m' : option Z)
    (p : string) (row col row' col' : Z) :
  save_name path_name path_stem path_suffix
    (MkCellImage d m p row col : image)
  = save_name path_name path_stem path_suffix
      (MkCellImage d' m' p row' col' : image) ->
  row = row' /\ col = col'.
Proof.
  unfold save_name, cell_file_name. intros E.
  apply append_inj_l in E. simpl in E.
  injection E as E.
  destruct (@first_occurrence "_" (format_02d row) (format_02d row')
              (String.append "col" (String.append (format_02d col) (path_suffix p)))
              (String.append "col" (String.append (format_02d col') (path_suffix p)))
              (format_02d_has_no_underscore row)
              (format_02d_has_no_underscore row') E) as [Er Ec].
  simpl in Ec. injection Ec as Ec. apply append_inj_r in Ec.
  split; apply format_02d_inj; assumption.
Qed.

End SavingProperties.

(** ** Dataset keys *)

Lemma split_without (c : ascii) (x : string) :
  has_char c x = false -> split c x = [x].
Proof.
  induction x as [|a x IH]; simpl; [reflexivity|]. intros Hx.
  apply orb_false_iff in Hx as [Ha Hx]. rewrite Ha, (IH Hx). reflexivity.
Qed.

Lemma split_at (c : ascii) (a b : string) :
  has_char c a = false ->
  split c (String.append a (String c b)) = a :: split c b.
Proof.
  induction a as [|u a IH]; simpl; intros Ha.
  - now rewrite Ascii.eqb_refl.
  - apply orb_false_iff in Ha as [Hu Ha]. rewrite Hu, (IH Ha). reflexivity.
Qed.

Lemma split_join (c : ascii) (pieces : list string) :
  pieces <> [] -> Forall (fun x => has_char c x = false) pieces ->
  split c (join c pieces) = pieces.
Proof.
  induction pieces as [|x rest IH]; intros Hne Hall; [contradiction|].
  destruct rest as [|y rest].
  - simpl. apply split_without. exact (Forall_inv Hall).
  - change (join c (x :: y :: rest))
      with (String.append x (String c (join c (y :: rest)))).
    rewrite split_at by exact (Forall_inv Hall).
    rewrite IH; [reflexivity | discriminate | exact (Forall_inv_tail Hall)].
Qed.

Lemma key_entry_outcome (x : string) :
  (exists kv, key_entry x = Return kv) \/ key_entry x = Raise IndexError.
Proof.
  unfold key_entry. destruct (split comma x) as [|k [|v rest]]; eauto.
Qed.

Lemma mapM_key_entry_malformed (pieces : list string) :
  Exists (fun x => has_char comma x = false) pieces ->
  mapM key_entry pieces = Raise IndexError.
Proof.
  induction pieces as [|x rest IH]; intros Hex; [inversion Hex|].
  simpl. destruct (key_entry_outcome x) as [(kv & E) | E]; rewrite E;
    [|reflexivity].
  simpl. inversion Hex as [? ? Hx | ? ? Ht]; subst.
  - unfold key_entry in E. rewrite (split_without _ _ Hx) in E. discriminate E.
  - rewrite (IH Ht). reflexivity.
Qed.

(** X22: for a name that is not built in, one entry of PVINSPECT_KEYS
    without a comma (an empty value, a trailing semicolon) makes the lookup
    raise IndexError, also when another entry defines the name. *)
Theorem malformed_entry_raises (s name x : string) :
  dict_get name _ds_keys = None ->
  In x (split semicolon s) -> has_char comma x = false ->
  _get_dataset_key (Some s) name = Raise IndexError.
Proof.
  intros Hb Hin Hx. unfold _get_dataset_key. rewrite Hb.
  rewrite mapM_key_entry_malformed; [reflexivity|].
  apply Exists_exists. exists x. auto.
Qed.

(** A built-in name is answered from the table, whether or not the
    variable is set; any other name raises AttributeError when the variable
    is not set. *)
Lemma unset_variable (env : option string) (name key : string) :
  (dict_get name _ds_keys = Some key ->
     _get_dataset_key env name = Return key) /\
  (dict_get name _ds_keys = None ->
     _get_dataset_key None name = Raise AttributeError).
Proof.
  unfold _get_dataset_key. split; intros ->; reflexivity.
Qed.

(** X23: when PVINSPECT_KEYS lists names and keys as [name,key;name,key;...]
    a name that is not built in gets the key of its last entry, and the
    RuntimeError of line 24 when it has none. *)
Theorem encoded_keys_are_found (entries : list (string * string))
    (name : string) :
  entries <> [] ->
  Forall (fun kv => plain_field (fst kv) /\ plain_field (snd kv)) entries ->
  dict_get name _ds_keys = None ->
  _get_dataset_key (Some (encode_keys entries)) name =
    match dict_get name entries with
    | Some key => Return key
    | None => Raise (RuntimeError dataset_not_found)
    end.
Proof.
  intros Hne Hall Hb. unfold _get_dataset_key, encode_keys. rewrite Hb.
  rewrite split_join.
  - assert (Hm : mapM key_entry
                   (map (fun kv => String.append (fst kv) (String comma (snd kv)))
                      entries) = Return entries).
    { clear Hne. induction Hall as [|[k v] rest [[_ Hk] [_ Hv]] _ IH];
        simpl; [reflexivity|].
      unfold key_entry at 1. simpl in Hk, Hv.
      rewrite (split_at _ _ v Hk), (split_without _ _ Hv). simpl.
      rewrite IH. reflexivity. }
    rewrite Hm. reflexivity.
  - destruct entries; [contradiction | discriminate].
  - apply Forall_map. eapply Forall_impl; [|exact Hall].
    intros [k v] [[Hk _] [Hv _]]. simpl in *.
    rewrite has_char_append. simpl. rewrite Hk, Hv. reflexivity.
Qed.

(** * The statements on concrete inputs *)

Import Reference Examples.

Ltac reader_images :=
  repeat (apply Forall_cons || apply Forall_nil);
  unfold from_reader, image_dtype, well_formed;
  repeat split; try reflexivity; try discriminate;
  try (left; reflexivity); try (right; left; reflexivity);
  try (right; right; reflexivity).

(** C1, witness: the three images of shapes (10,10), (10,12) and (12,10)
    are padded to (12,12), and the module sequence built from them with
    [allow_different_dtypes=False] has shape None and dtype uint16. *)
Lemma resolve_pads_three_shapes :
  Forall (from_reader (Some EL_IMAGE) (Some 10%Z) (Some 6%Z)) three_shapes /\
  Forall (fun img => dtype img = uint16) three_shapes /\
  homogeneous_shapes (map shape three_shapes) = false /\
  exists out,
    resolve three_shapes = Return out /\
    Forall2 (padded (12, 12)) three_shapes out /\
    ModuleImageSequence_init out false false
      = Return (mk_sequence ModuleImageSequence out false false) /\
    ImageSequence_shape (mk_sequence ModuleImageSequence out false false)
      = Return None /\
    ImageSequence_dtype (mk_sequence ModuleImageSequence out false false)
      = Return (Some uint16).
Proof.
  assert (H1 : Forall (from_reader (Some EL_IMAGE) (Some 10%Z) (Some 6%Z))
                 three_shapes) by reader_images.
  assert (H2 : Forall (fun img : image Q unit => dtype img = uint16)
                 three_shapes) by reader_images.
  assert (H3 : homogeneous_shapes (map shape three_shapes) = false)
    by reflexivity.
  split; [exact H1|]. split; [exact H2|]. split; [exact H3|].
  destruct (resolve_pads_to_bounding_shape H1 H2 H3)
    as (target & out & Et & _ & _ & _ & Er & Hp & Hs).
  vm_compute in Et. injection Et as <-.
  exists out. split; [exact Er|]. split; [exact Hp|]. exact (Hs false).
Defined.

(** C1, counterexample: on the three files the reader returns no sequence
    at all, it raises TypeError; and had the constructor been given the
    resolved images with [allow_different_dtypes=True], the dtype of the
    sequence would be None although every image is uint16. *)
Lemma reader_returns_no_padded_sequence :
  _read_module_images (Transform := unit) three_files (Some EL_IMAGE) false
    false (Some 10%Z) (Some 6%Z) 0 true = Raise TypeError /\
  exists out : list (image Q unit),
    read_and_resolve three_files (Some EL_IMAGE) false false (Some 10%Z)
      (Some 6%Z) 0 = Return out /\
    Forall (fun img => dtype img = uint16) out /\
    ModuleImageSequence_init out false true
      = Return (mk_sequence ModuleImageSequence out false true) /\
    ImageSequence_dtype (mk_sequence ModuleImageSequence out false true)
      = Return None.
Proof.
  split; [vm_compute; reflexivity|].
  eexists. split; [vm_compute; reflexivity|].
  split; [repeat constructor|].
  split; vm_compute; reflexivity.
Qed.

(** C2, witness: a uint16 and a float32 image are both rebuilt as float64,
    and the module sequence built from them has dtype None exactly when
    [allow_different_dtypes] is set. *)
Lemma resolve_casts_mixed_types :
  Forall (from_reader (Some EL_IMAGE) (Some 10%Z) (Some 6%Z)) mixed_types /\
  homogeneous_types mixed_types = false /\
  exists out,
    resolve mixed_types = Return out /\
    length out = 2 /\
    Forall (fun new => dtype new = float64) out /\
    ImageSequence_dtype (mk_sequence ModuleImageSequence out false true)
      = Return None /\
    ImageSequence_dtype (mk_sequence ModuleImageSequence out false false)
      = Return (Some float64).
Proof.
  assert (H1 : Forall (from_reader (Some EL_IMAGE) (Some 10%Z) (Some 6%Z))
                 mixed_types) by reader_images.
  assert (H2 : homogeneous_types mixed_types = false) by reflexivity.
  split; [exact H1|]. split; [exact H2|].
  destruct (resolve_casts_to_float64 H1 H2) as (out & Er & El & Hf & Hs).
  exists out. split; [exact Er|]. split; [exact El|]. split; [exact Hf|].
  split; [exact (proj2 (Hs true)) | exact (proj2 (Hs false))].
Defined.

(** C2, counterexample: on a uint16 and a float32 file the reader raises
    TypeError; and the sequence the constructor builds from the resolved
    images with the default [allow_different_dtypes=False] has dtype
    float64, not None. *)
Lemma float64_sequence_has_a_dtype :
  _read_module_images (Transform := unit) mixed_files (Some EL_IMAGE) false
    false (Some 10%Z) (Some 6%Z) 0 false = Raise TypeError /\
  exists out : list (image Q unit),
    read_and_resolve mixed_files (Some EL_IMAGE) false false (Some 10%Z)
      (Some 6%Z) 0 = Return out /\
    ModuleImageSequence_init out false false
      = Return (mk_sequence ModuleImageSequence out false false) /\
    ImageSequence_dtype (mk_sequence ModuleImageSequence out false false)
      = Return (Some float64).
Proof.
  split; [vm_compute; reflexivity|].
  eexists. split; [vm_compute; reflexivity|].
  split; vm_compute; reflexivity.
Qed.

(** C3, witness: a sequence of two images plus a sequence of one. *)
Lemma add_two_and_one :
  class_of two_images <> CellImageSequence /\
  mapM (fun xy => Image_arith Add (fst xy) (snd xy))
       (combine (_images two_images) (_images one_image))
    = Return [plain "a.png" (row uint16 11 22)] /\
  ImageSequence_arith Add two_images one_image
    = ImageSequence_init ImageSequence [plain "a.png" (row uint16 11 22)]
        true false /\
  length [plain "a.png" (row uint16 11 22)] = Nat.min 2 1.
Proof.
  assert (H1 : class_of two_images <> CellImageSequence) by discriminate.
  assert (H2 : mapM (fun xy => Image_arith Add (fst xy) (snd xy))
                 (combine (_images two_images) (_images one_image))
               = Return [plain "a.png" (row uint16 11 22)])
    by (vm_compute; reflexivity).
  split; [exact H1|]. split; [exact H2|].
  destruct (ImageSequence_arith_pairwise Add two_images one_image H1 H2)
    as (Hl & _ & He & _).
  split; [exact He | exact Hl].
Defined.

(** C3, counterexample: the sequences have lengths 2 and 1, and their sum
    is a sequence, of length 1. *)
Lemma unequal_lengths_are_added :
  ImageSequence_len two_images = 2 /\
  ImageSequence_len one_image = 1 /\
  ImageSequence_arith Add two_images one_image
    = Return (mk_sequence ImageSequence [plain "a.png" (row uint16 11 22)]
                true false).
Proof. repeat split; vm_compute; reflexivity. Qed.

(** C4, witness: a uint16 image plus a float32 image. *)
Lemma add_uint16_float32 :
  dtype img_1_2 <> dtype img_f32 /\
  Image_arith Add img_1_2 img_f32
    = Raise (RuntimeError "Images must have the same datatype").
Proof.
  assert (H1 : dtype img_1_2 <> dtype img_f32) by discriminate.
  split; [exact H1|].
  exact (Image_arith_dtype_mismatch Add img_1_2 img_f32 H1).
Defined.

(** C4, counterexample: the sum of a uint16 and a float32 image is a raised
    RuntimeError, not a logged exit; and the quotient of a float32 and a
    float64 image, whose dtypes differ as well, is an image. *)
Lemma dtype_mismatch_is_an_exception :
  dtype img_1_2 = uint16 /\ dtype img_f32 = float32 /\
  dtype img_f64 = float64 /\
  Image_arith Add img_1_2 img_f32
    = Raise (RuntimeError "Images must have the same datatype") /\
  Image_arith TrueDiv img_f32 img_f64
    = Return (plain "d.tif" (row float64 2 (1 # 2))).
Proof. repeat split; vm_compute; reflexivity. Qed.

(** C7 on a float32 image: the first conversion rescales, the second
    returns what it is given. *)
Example as_type_uint16_on_float32 :
  as_type img_f32 uint16 = Return (plain "d.tif" (row uint16 32768 65535)) /\
  as_type (plain "d.tif" (row uint16 32768 65535)) uint16
    = Return (plain "d.tif" (row uint16 32768 65535)).
Proof. split; vm_compute; reflexivity. Qed.

(** C8, witness: the grid of a module of 2 columns and 1 row. *)
Lemma grid_small_module :
  cols small_module = Return (Some 2%Z) /\
  rows small_module = Return (Some 1%Z) /\
  exists g, grid small_module = Return g /\
    Z.of_nat (length g) = ((2 + 1) * (1 + 1))%Z /\
    NoDup g /\
    (forall x y, In (x, y) g <-> (0 <= x <= 2)%Z /\ (0 <= y <= 1)%Z).
Proof.
  split; [reflexivity|]. split; [reflexivity|].
  exact (@grid_is_lattice Q unit small_module (Some 2%Z) (Some 1%Z)
           eq_refl eq_refl).
Defined.

(** C8, counterexample: [cols] and [rows] are set, and [grid()] returns no
    array: with [cols = -2] the first axis of [np.mgrid] would have length
    -1. *)
Lemma negative_geometry_raises :
  cols negative_module = Return (Some (-2)%Z) /\
  rows negative_module = Return (Some 1%Z) /\
  grid negative_module = Raise ValueError.
Proof. repeat split; reflexivity. Qed.

Example grid_small_module_rows :
  grid small_module
    = Return [(0, 0); (0, 1); (1, 0); (1, 1); (2, 0); (2, 1)]%Z.
Proof. reflexivity. Qed.

(** C9, witness: 8-bit data is stored as the 16-bit array [img_as_uint]
    returns. *)
Lemma bytes_become_uint16 :
  constructed bytes (Image_init (Transform := unit) bytes "x" None) /\
  Image_init bytes "x" None = Return (plain "x" (row uint16 0 65535)) /\
  img_as_uint bytes = Return (row uint16 0 65535) /\
  dtype (plain "x" (row uint16 0 65535)) = uint16.
Proof.
  assert (H1 : constructed bytes (Image_init (Transform := unit) bytes "x" None))
    by constructor.
  assert (H2 : Image_init bytes "x" None = Return (plain "x" (row uint16 0 65535)))
    by (vm_compute; reflexivity).
  split; [exact H1|]. split; [exact H2|].
  exact (proj1 (proj2 (constructor_common_dtype H1 H2)) eq_refl).
Defined.

(** C9, counterexample: two different signed 16-bit arrays are stored as the
    same data, so the conversion loses information. *)
Lemma negative_values_collapse :
  arr_dtype minus_one = int16 /\ arr_dtype minus_two = int16 /\
  arr_flat minus_one = [(-1)%Q] /\ arr_flat minus_two = [(-2)%Q] /\
  Image_init (Transform := unit) minus_one "x" None
    = Return (plain "x" (mk_ndarray uint16 (1, 1) [0%Q])) /\
  Image_init (Transform := unit) minus_two "x" None
    = Return (plain "x" (mk_ndarray uint16 (1, 1) [0%Q])).
Proof. repeat split; vm_compute; reflexivity. Qed.

(** C10, witness: a uint16 and a float32 cell image. *)
Lemma cells_of_two_dtypes :
  Forall (fun img => modality img = modality cell_u16) [cell_f32] /\
  CellImageSequence_init [cell_u16; cell_f32] true
    = Return (mk_sequence CellImageSequence [cell_u16; cell_f32] false true) /\
  ImageSequence_dtype
    (mk_sequence CellImageSequence [cell_u16; cell_f32] false true)
    = Return None /\
  CellImageSequence_init [cell_u16; cell_f32] false = Exit MixedDtypes.
Proof.
  assert (H1 : Forall (fun img : image Q unit => modality img = modality cell_u16)
                 [cell_f32]) by (repeat constructor).
  split; [exact H1|].
  destruct (CellImageSequence_copy_waives_dtypes cell_u16 H1)
    as (_ & E1 & E2 & E3).
  split; [exact E1|]. split; [exact E2 | exact E3].
Defined.

(** C6 on concrete inputs: a function returning a sequence, then one
    returning a tuple, called with the one module image. *)
Example adapter_on_small_module :
  wrapper_sequence false (fun args => Return (hd (PyOther 0) args))
    [PyImage small_module] = Return (PyImage small_module) /\
  wrapper_sequence true (fun args => Return (hd (PyOther 0) args))
    [PyImage small_module]
    = Return (PySequence
                (mk_sequence ModuleImageSequence [small_module] false false)) /\
  wrapper_sequence false
    (fun args => Return (PyTuple [hd (PyOther 0) args; PyOther 1]))
    [PyImage small_module] = Raise TypeError.
Proof. repeat split; vm_compute; reflexivity. Qed.

(** ** The further properties on concrete inputs *)

(** X2, witness: an image without modality followed by an EL image. *)
Lemma modality_none_then_el :
  In img_el [img_el] /\
  modality img_el <> modality img_1_2 /\
  exists log, ImageSequence_init ImageSequence [img_1_2; img_el] false true
                = Exit log.
Proof.
  assert (H1 : In img_el [img_el]) by (left; reflexivity).
  assert (H2 : modality img_el <> modality img_1_2) by discriminate.
  split; [exact H1|]. split; [exact H2|].
  exact (@mixed_modalities_exit Q unit ImageSequence img_1_2 img_el [img_el]
           false true H1 H2).
Defined.

(** X4, witness: a 2 x 1 module followed by a 10 x 6 module. *)
Lemma two_geometries :
  cols small_module = Return (Some 2%Z) /\
  rows small_module = Return (Some 1%Z) /\
  ModuleImageSequence_init
    [small_module; module_image ("a.png"%string, ramp uint16 1 2)] false true
    = Exit DifferentModuleConfigurations.
Proof.
  split; [reflexivity|]. split; [reflexivity|].
  apply (@geometry_mismatch_exits Q unit small_module
           [module_image ("a.png"%string, ramp uint16 1 2)]
           (Some 2%Z) (Some 1%Z) false true eq_refl eq_refl).
  - repeat constructor. eexists. eexists. split; reflexivity.
  - apply Exists_cons_hd. left. discriminate.
Defined.

(** X5, witness: the sequence of two uint16 images of one shape. *)
Lemma properties_of_two_images :
  ImageSequence_init ImageSequence [img_1_2; img_3_4] true false
    = Return two_images /\
  ImageSequence_modality two_images = Return None /\
  ImageSequence_dtype two_images = Return (Some uint16) /\
  ImageSequence_shape two_images = Return (Some (1, 2)) /\
  Forall (fun img => dtype img = uint16) (_images two_images).
Proof.
  assert (H1 : ImageSequence_init ImageSequence [img_1_2; img_3_4] true false
               = Return two_images) by reflexivity.
  split; [exact H1|].
  destruct (@properties_describe_every_image Q unit ImageSequence
              [img_1_2; img_3_4] true false two_images H1)
    as (_ & (d & Ed & Hd) & _).
  split; [reflexivity|]. split; [reflexivity|]. split; [reflexivity|].
  vm_compute in Ed. injection Ed as <-. exact (Hd uint16 eq_refl).
Defined.

(** X6, witness: cloning the sequence of two images. *)
Lemma clone_of_two_images :
  new_sequence ImageSequence
    [VImages [img_1_2; img_3_4]; VBool true; VBool false] []
    = Return two_images /\
  class_of two_images = ImageSequence /\
  from_other ImageSequence two_images [] = Return two_images.
Proof.
  assert (H1 : new_sequence ImageSequence
                 [VImages [img_1_2; img_3_4]; VBool true; VBool false] []
               = Return two_images) by reflexivity.
  split; [exact H1|].
  exact (@from_other_reproduces Q unit ImageSequence [img_1_2; img_3_4]
           true false two_images H1).
Defined.

(** X7, witness: cloning a cell sequence with other images. *)
Lemma clone_of_cell_sequence :
  mem "copy" (map fst [("images"%string, VImages [cell_f32])]) = false /\
  from_other CellImageSequence cell_sequence
    [("images"%string, VImages [cell_f32])] = Raise AttributeError.
Proof.
  split; [reflexivity|].
  exact (@CellImageSequence_from_other_raises Q unit cell_sequence
           [("images"%string, VImages [cell_f32])] eq_refl).
Defined.

(** X8, witness: the data of two images reversed. *)
Lemma flip_two_images :
  apply_image_data two_images flip
    = Return (mk_sequence ImageSequence
                [plain "a.png" (row uint16 2 1); plain "b.png" (row uint16 4 3)]
                true false) /\
  Forall2 (fun img new =>
             exists d, flip (data img) = Return d /\
               common_dtype d = Return (data new) /\
               new = with_data img (data new))
    (_images two_images)
    [plain "a.png" (row uint16 2 1); plain "b.png" (row uint16 4 3)].
Proof.
  assert (H1 : apply_image_data two_images flip
               = Return (mk_sequence ImageSequence
                           [plain "a.png" (row uint16 2 1);
                            plain "b.png" (row uint16 4 3)] true false))
    by (vm_compute; reflexivity).
  split; [exact H1|].
  exact (proj2 (proj2 (proj2
           (@apply_image_data_keeps_metadata Q _ unit two_images _ flip H1)))).
Defined.

(** X9, witness: a sequence of one float32 image converted to uint16. *)
Lemma float_sequence_to_uint16 :
  ImageSequence_as_type float_sequence uint16
    = Return (mk_sequence ImageSequence
                [plain "d.tif" (row uint16 32768 65535)] true false) /\
  ImageSequence_as_type
    (mk_sequence ImageSequence [plain "d.tif" (row uint16 32768 65535)]
       true false) uint16
    = Return (mk_sequence ImageSequence
                [plain "d.tif" (row uint16 32768 65535)] true false).
Proof.
  assert (H1 : ImageSequence_as_type float_sequence uint16
               = Return (mk_sequence ImageSequence
                           [plain "d.tif" (row uint16 32768 65535)] true false))
    by (vm_compute; reflexivity).
  split; [exact H1|].
  exact (proj2 (@ImageSequence_as_type_uint16_idempotent Q _ unit
                  float_sequence _ H1)).
Defined.

(** X10, witness: the sum of two uint16 images. *)
Lemma sum_keeps_left_path :
  Image_arith Add img_1_2 img_3_4 = Return (plain "a.png" (row uint16 4 6)) /\
  plain "a.png" (row uint16 4 6) = with_data img_1_2 (row uint16 4 6) /\
  dtype img_1_2 = dtype img_3_4.
Proof.
  assert (H1 : Image_arith Add img_1_2 img_3_4
               = Return (plain "a.png" (row uint16 4 6)))
    by (vm_compute; reflexivity).
  split; [exact H1|].
  destruct (@Image_arith_keeps_left_operand Q _ unit Add img_1_2 img_3_4 _ H1)
    as (E1 & _ & E3).
  split; [exact E1 | exact E3].
Defined.

(** X11, witness: corner (1, 1) of the 2 x 1 module is row 3. *)
Lemma corner_of_small_module :
  cols small_module = Return (Some 2%Z) /\
  rows small_module = Return (Some 1%Z) /\
  grid small_module
    = Return [(0, 0); (0, 1); (1, 0); (1, 1); (2, 0); (2, 1)]%Z /\
  nth_error [(0, 0); (0, 1); (1, 0); (1, 1); (2, 0); (2, 1)]%Z 3
    = Some (1, 1)%Z.
Proof.
  split; [reflexivity|]. split; [reflexivity|]. split; [reflexivity|].
  apply (@grid_row_of_corner Q unit small_module 2%Z 1%Z _ 1 1
           eq_refl eq_refl eq_refl); simpl; lia.
Defined.

(** X12, witness: a function that returns the sequence of two images,
    called with one image. *)
Lemma first_of_two_is_returned :
  _images two_images = [img_1_2; img_3_4] /\
  wrapper_sequence false (fun _ => Return (PySequence two_images))
    [PyImage img_10_20] = Return (PyImage img_1_2).
Proof.
  split; [reflexivity|].
  exact (@wrapper_sequence_unwraps Q unit
           (fun _ => Return (PySequence two_images)) img_10_20 img_1_2 []
           two_images [img_3_4] eq_refl eq_refl).
Defined.

(** X17, witness: the three images of different shapes, resolved twice. *)
Lemma three_shapes_resolved_twice :
  Forall (from_reader (Some EL_IMAGE) (Some 10%Z) (Some 6%Z)) three_shapes /\
  exists out,
    resolve three_shapes = Return out /\
    homogeneous_shapes (map shape out) = true /\
    resolve out = Return out.
Proof.
  assert (H1 : Forall (from_reader (Some EL_IMAGE) (Some 10%Z) (Some 6%Z))
                 three_shapes) by reader_images.
  split; [exact H1|].
  destruct (resolve three_shapes) as [out| |] eqn:E;
    [|vm_compute in E; discriminate E | vm_compute in E; discriminate E].
  exists out. split; [reflexivity|].
  exact (proj2 (@resolve_is_idempotent Q _ unit three_shapes out
                  (Some EL_IMAGE) (Some 10%Z) (Some 6%Z) H1 E)).
Defined.

(** X18, witness: two partial module images of different shapes. *)
Lemma partial_images_rebuilt :
  Forall (from_reader (Some EL_IMAGE) (Some 10%Z) (Some 6%Z)) partial_images /\
  homogeneous_types partial_images
    && homogeneous_shapes (map shape partial_images) = false /\
  exists out,
    resolve partial_images = Return out /\
    Forall2 (fun img new =>
               exists d, new = MkModuleImage d (Some EL_IMAGE) (path img)
                                 (Some 10%Z) (Some 6%Z) None)
      partial_images out.
Proof.
  assert (H1 : Forall (from_reader (Some EL_IMAGE) (Some 10%Z) (Some 6%Z))
                 partial_images) by reader_images.
  assert (H2 : homogeneous_types partial_images
               && homogeneous_shapes (map shape partial_images) = false)
    by reflexivity.
  split; [exact H1|]. split; [exact H2|].
  exact (@resolve_rebuilds_as_ModuleImage Q _ unit partial_images
           (Some EL_IMAGE) (Some 10%Z) (Some 6%Z) H1 H2).
Defined.


(** X20, witness: the first and the last image of two. *)
Lemma head_and_tail_of_two :
  (0 <= 1)%Z /\
  head_images two_images 1 = [img_1_2] /\
  tail_images two_images 1 = [img_3_4].
Proof.
  assert (H1 : (0 <= 1)%Z) by lia.
  split; [exact H1|].
  exact (@head_and_tail_selection Q unit two_images 1%Z H1).
Defined.

Example tail_of_nothing_is_everything :
  tail_images two_images 0 = [img_1_2; img_3_4] /\
  head_images two_images 0 = [].
Proof. split; reflexivity. Qed.

(** X21, witness: the cell at row 2, column 5 of foo.png. *)
Lemma cell_2_5_of_foo :
  save_name whole_name foo_stem foo_suffix (cell (row uint16 1 2) 5%Z)
    = save_name whole_name foo_stem foo_suffix (cell (row float32 0 1) 5%Z) /\
  0%Z = 0%Z /\ 5%Z = 5%Z.
Proof.
  assert (H1 : save_name whole_name foo_stem foo_suffix
                 (cell (row uint16 1 2) 5%Z)
               = save_name whole_name foo_stem foo_suffix
                   (cell (row float32 0 1) 5%Z)) by reflexivity.
  split; [exact H1|].
  exact (@cell_names_are_distinct Q unit whole_name foo_stem foo_suffix
           _ _ _ _ _ _ _ _ _ H1).
Defined.

Example name_of_cell_2_5 :
  cell_file_name "foo" ".png" 2 5 = "foo_row02_col05.png"%string /\
  cell_file_name "foo" ".png" 12 (-3) = "foo_row12_col-3.png"%string /\
  save_name whole_name foo_stem foo_suffix small_module = "m.png"%string.
Proof. repeat split; reflexivity. Qed.

(** X22, witness: a trailing semicolon. *)
Lemma trailing_semicolon :
  dict_get "a" _ds_keys = None /\
  In EmptyString (split semicolon "a,b;") /\
  has_char comma EmptyString = false /\
  _get_dataset_key (Some "a,b;"%string) "a" = Raise IndexError.
Proof.
  assert (H1 : dict_get "a" _ds_keys = None) by reflexivity.
  assert (H2 : In EmptyString (split semicolon "a,b;"))
    by (right; left; reflexivity).
  assert (H3 : has_char comma EmptyString = false) by reflexivity.
  split; [exact H1|]. split; [exact H2|]. split; [exact H3|].
  exact (@malformed_entry_raises "a,b;" "a" EmptyString H1 H2 H3).
Defined.

(** X23, witness: a name listed twice gets its last key. *)
Lemma last_key_of_a :
  some_keys <> [] /\
  Forall (fun kv => plain_field (fst kv) /\ plain_field (snd kv)) some_keys /\
  dict_get "a" _ds_keys = None /\
  encode_keys some_keys = "a,1;b,2;a,3"%string /\
  _get_dataset_key (Some "a,1;b,2;a,3"%string) "a" = Return "3"%string.
Proof.
  assert (H1 : some_keys <> []) by discriminate.
  assert (H2 : Forall (fun kv => plain_field (fst kv) /\ plain_field (snd kv))
                 some_keys) by (repeat constructor).
  assert (H3 : dict_get "a" _ds_keys = None) by reflexivity.
  split; [exact H1|]. split; [exact H2|]. split; [exact H3|].
  split; [reflexivity|].
  exact (@encoded_keys_are_found some_keys "a" H1 H2 H3).
Defined.

Example the_built_in_key :
  _get_dataset_key None "20191219_poly10x6"
    = Return "1B5fQPLvStuMvuYJ5CxbzyxfwuWQdfNVE"%string /\
  _get_dataset_key None "20200114_caip" = Raise AttributeError /\
  _get_dataset_key (Some "x,1"%string) "20200114_caip"
    = Raise (RuntimeError dataset_not_found).
Proof. repeat split; reflexivity. Qed.
